(** * CNKI MCP server: session pool, alias resolver, fuzzy matcher, collectors

    A shallow embedding of [cnki_mcp_server.py].  Pure helpers
    ([resolve_search_type], [resolve_sort_type], [find_closest_title]) are
    Rocq functions over Python strings, modelled as lists of Unicode code
    points.  The asynchronous, browser-driving code is written in a small
    state-and-exception monad over a world that holds the browser pool, the
    object allocator, the external browser environment and a trace of every
    interaction issued.  Timestamps are Python floats: IEEE binary64 numbers,
    with the rounding of their arithmetic. *)

From Stdlib Require Import PrimFloat SpecFloat FloatOps.
From Stdlib Require Import String Ascii NArith ZArith QArith Bool Arith Lia List.
Import ListNotations.
Close Scope Q_scope.
Set Warnings "-register-all,-inexact-float".

Set Implicit Arguments.

(* ===================================================================== *)
(** ** Python strings *)
(* ===================================================================== *)

Module PyStr.

(** A Python [str] is a sequence of Unicode code points. *)
Definition str := list N.

(** Decoder from UTF-8 bytes, so that the tables below can be written with
    the literals the source uses. *)
Fixpoint utf8_decode (bs : list N) : str :=
  match bs with
  | [] => []
  | b :: r =>
      if (b <? 128)%N then b :: utf8_decode r
      else if (b <? 224)%N then
        match r with
        | c1 :: r1 =>
            N.lor (N.shiftl (N.land b 31) 6) (N.land c1 63) :: utf8_decode r1
        | _ => []
        end
      else if (b <? 240)%N then
        match r with
        | c1 :: c2 :: r2 =>
            N.lor (N.shiftl (N.land b 15) 12)
              (N.lor (N.shiftl (N.land c1 63) 6) (N.land c2 63)) :: utf8_decode r2
        | _ => []
        end
      else
        match r with
        | c1 :: c2 :: c3 :: r3 =>
            N.lor (N.shiftl (N.land b 7) 18)
              (N.lor (N.shiftl (N.land c1 63) 12)
                 (N.lor (N.shiftl (N.land c2 63) 6) (N.land c3 63))) :: utf8_decode r3
        | _ => []
        end
  end.

Definition u (s : string) : str :=
  utf8_decode (map N_of_ascii (list_ascii_of_string s)).

Fixpoint str_eqb (a b : str) : bool :=
  match a, b with
  | [], [] => true
  | x :: a', y :: b' => (x =? y)%N && str_eqb a' b'
  | _, _ => false
  end.

(** [c in t] for a one-character [c]. *)
Definition char_in (c : N) (t : str) : bool := existsb (N.eqb c) t.

(** [str.isspace] on one code point: the code points Python's [strip]
    removes when called without an argument. *)
Definition isspace (c : N) : bool :=
  ((9 <=? c) && (c <=? 13) || (28 <=? c) && (c <=? 32)
   || (c =? 133) || (c =? 160) || (c =? 5760)
   || (8192 <=? c) && (c <=? 8202)
   || (c =? 8232) || (c =? 8233) || (c =? 8239) || (c =? 8287)
   || (c =? 12288))%N.

Fixpoint lstrip_by (p : N -> bool) (s : str) : str :=
  match s with
  | [] => []
  | c :: r => if p c then lstrip_by p r else s
  end.

Definition rstrip_by (p : N -> bool) (s : str) : str :=
  rev (lstrip_by p (rev s)).

(** [s.strip()] *)
Definition strip (s : str) : str := rstrip_by isspace (lstrip_by isspace s).

(** [s.rstrip(chars)] *)
Definition rstrip_chars (chars : str) (s : str) : str :=
  rstrip_by (fun c => char_in c chars) s.

(** [str.lower] on one code point.  ASCII capitals map to their small
    letters.  The two non-ASCII code points whose lowercase contains an ASCII
    letter are mapped as Python maps them (KELVIN SIGN to [k]; capital I with
    dot above to [i] followed by a combining dot).  Every other code point is
    kept: that is what Python does on uncased code points (CJK ideographs,
    digits, punctuation, whitespace), and the remaining cased code points
    lower to non-ASCII letters, which no table key or search needle of this
    program contains. *)
Definition lower_cp (c : N) : list N :=
  if ((65 <=? c) && (c <=? 90))%N then [(c + 32)%N]
  else if (c =? 8490)%N then [107%N]
  else if (c =? 304)%N then [105%N; 775%N]
  else [c].

(** [s.lower()] *)
Definition lower (s : str) : str := flat_map lower_cp s.

(** [needle in s] for strings. *)
Fixpoint is_prefix (p s : str) : bool :=
  match p, s with
  | [], _ => true
  | x :: p', y :: s' => (x =? y)%N && is_prefix p' s'
  | _ :: _, [] => false
  end.

Fixpoint contains (needle s : str) : bool :=
  is_prefix needle s ||
  match s with
  | [] => false
  | _ :: s' => contains needle s'
  end.

(** [s.split(sep)] for a one-character separator: never empty. *)
Fixpoint split_on (sep : N) (s : str) : list str :=
  match s with
  | [] => [[]]
  | c :: r =>
      if (c =? sep)%N then [] :: split_on sep r
      else match split_on sep r with
           | [] => [[c]]
           | w :: ws => (c :: w) :: ws
           end
  end.

(** [s[:n]] *)
Definition take (n : nat) (s : str) : str := firstn n s.

End PyStr.
Import PyStr.

(* ===================================================================== *)
(** ** Dictionaries keyed by strings *)
(* ===================================================================== *)

(** The lookup tables of the source are dict literals with distinct keys;
    they are modelled as association lists in source order. *)
Definition table := list (str * str).

Fixpoint table_get (d : table) (k : str) : option str :=
  match d with
  | [] => None
  | (k', v) :: d' => if str_eqb k k' then Some v else table_get d' k
  end.

(** [k in d] *)
Definition table_mem (d : table) (k : str) : bool :=
  match table_get d k with Some _ => true | None => false end.

Definition table_keys (d : table) : list str := map fst d.

(* ===================================================================== *)
(** ** Search type mappings *)
(* ===================================================================== *)

Definition SEARCH_TYPES : table :=
  [ (u"主题", u"SU"); (u"篇关摘", u"TKA"); (u"关键词", u"KY"); (u"篇名", u"TI");
    (u"全文", u"FT"); (u"作者", u"AU"); (u"第一作者", u"FI"); (u"通讯作者", u"RP");
    (u"作者单位", u"AF"); (u"基金", u"FU"); (u"摘要", u"AB"); (u"参考文献", u"RF");
    (u"分类号", u"CLC"); (u"文献来源", u"LY"); (u"DOI", u"DOI") ].

Definition SEARCH_TYPE_VALUES : table :=
  [ (u"主题", u"SU$%=|"); (u"篇关摘", u"TKA$%=|"); (u"关键词", u"KY$=|");
    (u"篇名", u"TI$%=|"); (u"全文", u"FT$%=|"); (u"作者", u"AU$=|");
    (u"第一作者", u"FI$=|"); (u"通讯作者", u"RP$%=|"); (u"作者单位", u"AF$%");
    (u"基金", u"FU$%|"); (u"摘要", u"AB$%=|"); (u"参考文献", u"RF$%=|");
    (u"分类号", u"CLC$=|??"); (u"文献来源", u"LY$%=|"); (u"DOI", u"DOI$=|?") ].

Definition SEARCH_TYPE_ALIASES : table :=
  [ (u"subject", u"主题"); (u"theme", u"主题"); (u"keyword", u"关键词");
    (u"keywords", u"关键词"); (u"title", u"篇名"); (u"author", u"作者");
    (u"first_author", u"第一作者"); (u"corresponding_author", u"通讯作者");
    (u"affiliation", u"作者单位"); (u"institution", u"作者单位");
    (u"fund", u"基金"); (u"abstract", u"摘要"); (u"fulltext", u"全文");
    (u"reference", u"参考文献"); (u"source", u"文献来源"); (u"doi", u"DOI") ].

Definition SORT_TYPES : table :=
  [ (u"相关度", u"FFD"); (u"发表时间", u"PT"); (u"被引", u"CF");
    (u"下载", u"DFR"); (u"综合", u"ZH") ].

Definition SORT_TYPE_ALIASES : table :=
  [ (u"relevance", u"相关度"); (u"date", u"发表时间"); (u"publish_time", u"发表时间");
    (u"time", u"发表时间"); (u"cited", u"被引"); (u"citation", u"被引");
    (u"citations", u"被引"); (u"download", u"下载"); (u"downloads", u"下载");
    (u"composite", u"综合"); (u"general", u"综合") ].

Definition PROFESSIONAL_SEARCH_FIELDS : table :=
  [ (u"主题", u"SU"); (u"关键词", u"KY"); (u"篇名", u"TI"); (u"全文", u"FT");
    (u"作者", u"AU"); (u"第一作者", u"FI"); (u"通讯作者", u"RP");
    (u"作者单位", u"AF"); (u"摘要", u"AB"); (u"DOI", u"DOI") ].

Definition USER_AGENTS : list str :=
  [ u"Mozilla/5.0 (Windows NT 10.0; Win64; x64) AppleWebKit/537.36 (KHTML, like Gecko) Chrome/138.0.0.0 Safari/537.36";
    u"Mozilla/5.0 (Macintosh; Intel Mac OS X 10_15_7) AppleWebKit/535.19 (KHTML, like Gecko) Chrome/138.0.0.0 Safari/537.36";
    u"Mozilla/5.0 (X11; Linux x86_64) AppleWebKit/535.11 (KHTML, like Gecko) Chrome/138.0.0.0 Safari/537.36" ].

(* ===================================================================== *)
(** ** Helpers *)
(* ===================================================================== *)

(** [not s] on a string. *)
Definition falsy (s : str) : bool :=
  match s with [] => true | _ => false end.

Definition resolve_search_type (search_type : str) : str :=
  if falsy search_type then u"主题"
  else
    let s := strip (lower search_type) in
    match table_get SEARCH_TYPE_ALIASES s with
    | Some canonical => canonical
    | None =>
        if table_mem SEARCH_TYPES search_type then search_type
        else u"主题"
    end.

Definition resolve_sort_type (sort_type : str) : str :=
  if falsy sort_type then u"相关度"
  else
    let s := strip (lower sort_type) in
    match table_get SORT_TYPE_ALIASES s with
    | Some canonical => canonical
    | None =>
        if table_mem SORT_TYPES sort_type then sort_type
        else u"相关度"
    end.

(** [sum(c in t for c in title)] *)
Definition common_chars (title t : str) : nat :=
  length (filter (fun c => char_in c t) title).

(** [enumerate(l)], counting from [i]. *)
Fixpoint enumerate_from {A} (i : nat) (l : list A) : list (nat * A) :=
  match l with
  | [] => []
  | x :: r => (i, x) :: enumerate_from (S i) r
  end.

(** One turn of the loop of [find_closest_title] on the pair
    [(max_similar, best_index)]. *)
Definition closest_step (title : str) (st : nat * nat) (it : nat * str) : nat * nat :=
  let '(max_similar, best_index) := st in
  let '(i, t) := it in
  let cc := common_chars title t in
  if max_similar <? cc then (cc, i) else (max_similar, best_index).

Definition find_closest_title (title : str) (result_titles : list str) : nat :=
  snd (fold_left (closest_step title) (enumerate_from 0 result_titles) (0, 0)).

(* ===================================================================== *)
(** ** Values exchanged with callers *)
(* ===================================================================== *)

(** Python values that appear in the dictionaries the tools return. *)
Inductive value : Type :=
| VNone
| VBool (b : bool)
| VInt (n : Z)
| VStr (s : str)
| VList (l : list value)
| VDict (d : list (string * value)).

(** A [dict] with literal keys, in insertion order. *)
Definition dict := list (string * value).

Fixpoint dict_get (d : dict) (k : string) : option value :=
  match d with
  | [] => None
  | (k', v) :: d' => if String.eqb k k' then Some v else dict_get d' k
  end.

(** [d[k] = v]: an existing key keeps its place, a new key goes last. *)
Fixpoint dict_set (d : dict) (k : string) (v : value) : dict :=
  match d with
  | [] => [(k, v)]
  | (k', v') :: d' =>
      if String.eqb k k' then (k', v) :: d' else (k', v') :: dict_set d' k v
  end.

(** Python truthiness. *)
Definition truthy (v : value) : bool :=
  match v with
  | VNone => false
  | VBool b => b
  | VInt n => negb (n =? 0)%Z
  | VStr s => negb (falsy s)
  | VList l => match l with [] => false | _ => true end
  | VDict d => match d with [] => false | _ => true end
  end.

(** [d.get(k)] used as a condition. *)
Definition dict_truthy (d : dict) (k : string) : bool :=
  match dict_get d k with Some v => truthy v | None => false end.

Definition VStrs (l : list str) : value := VList (map VStr l).

(* ===================================================================== *)
(** ** The external world: browser engine, clock, randomness *)
(* ===================================================================== *)

(** Python objects handed out by the runtime (Playwright, Browser, Page) and
    DOM element handles are identified by a number. *)
Definition handle := nat.

(** A leased page remembers the browser session it was opened in. *)
Record Page := mkPage { page_id : handle; page_session : handle }.

(** [query_selector] is called on pages and on element handles. *)
Inductive target := OnPage (p : handle) | OnElement (e : handle).

(** Exceptions derived from [Exception], the ones [except Exception] catches;
    [str(e)] is the message.  Cancellation of the task is not modelled. *)
Record exn := Exception { exn_msg : str }.

(** Every interaction with something outside the program, indexed by the
    type of what it returns.  Clock readings and delays are seconds, as
    Python floats (IEEE binary64, with its rounding); [asyncio_sleep lo hi]
    sleeps for a duration drawn between [lo] and [hi]. *)
Inductive Call : Type -> Type :=
| time_time : Call float
| random_choice (n : nat) : Call nat
| asyncio_sleep (lo hi : float) : Call unit
| playwright_start : Call unit
| chromium_launch (pw : handle) : Call unit
| playwright_stop (pw : handle) : Call unit
| browser_is_connected (b : handle) : Call bool
| browser_close (b : handle) : Call unit
| browser_new_page (b : handle) (user_agent : str) : Call unit
| page_add_init_script (p : handle) : Call unit
| page_close (p : handle) : Call unit
| page_goto (p : handle) (url : str) : Call unit
| page_click (p : handle) (selector : str) : Call unit
| page_wait_for_selector (p : handle) (selector : str) : Call unit
| page_get_by_text_click (p : handle) (text : str) : Call unit
| query_selector (t : target) (selector : str) : Call (option handle)
| query_selector_all (t : target) (selector : str) : Call (list handle)
| locator_clear (p : handle) (selector : str) : Call unit
| locator_press_sequentially (p : handle) (selector : str) (char : N) : Call unit
| locator_fill (p : handle) (selector : str) (text : str) : Call unit
| locator_click (p : handle) (selector : str) : Call unit
| inner_text (e : handle) : Call str
| get_attribute (e : handle) (name : str) : Call (option str)
| is_enabled (e : handle) : Call bool
| element_click (e : handle) : Call unit.

(** The interface the program drives: an environment state and, for each
    call, either an exception or a result, with the next environment. *)
Class Driver := {
  Env : Type;
  respond : forall X, Call X -> Env -> (exn + X) * Env
}.
Arguments respond {Driver} [X] _ _.

(** Writes to the attributes of the shared [BrowserPool] object. *)
Inductive Store :=
| set_playwright (v : option handle)
| set_browser (v : option handle)
| set_last_used (t : float).

(** Notifications sent through the tool layer's [Context] ([ctx.info],
    [ctx.error], [ctx.report_progress]).  The tool layer is a collaborator of
    the program: its notifications are recorded and taken to return.  A
    formatted message is kept as its literal parts and interpolated values. *)
Inductive Notice :=
| ctx_info (parts : list value)
| ctx_error (parts : list value)
| ctx_report_progress (progress total : Z).

(** What a run leaves behind, oldest first. *)
Inductive Event :=
| EvCall {X : Type} (c : Call X)
| EvAcquire
| EvRelease
| EvStore (s : Store)
| EvNotice (n : Notice).

(** [BrowserPool]: the attributes of the singleton instance. *)
Record BrowserPool := mkPool {
  _playwright : option handle;
  _browser : option handle;
  _last_used : float
}.

Definition IDLE_TIMEOUT : float := 600.

(** [BrowserPool.__init__] *)
Definition BrowserPool_init : BrowserPool :=
  {| _playwright := None; _browser := None; _last_used := 0 |}.

(* ===================================================================== *)
(** ** Running the program: state and exceptions *)
(* ===================================================================== *)

Inductive Outcome (A : Type) : Type :=
| Returned (a : A)
| Raised (e : exn).
Arguments Returned {A} a.
Arguments Raised {A} e.

Declare Scope py_scope.
Delimit Scope py_scope with py.

Section Model.

Context {D : Driver}.

(** Everything a coroutine of the program can read or change. *)
Record World := mkWorld {
  w_env : Env;
  w_next : handle;
  w_pool : BrowserPool;
  w_trace : list Event
}.

Definition M (A : Type) : Type := World -> Outcome A * World.

Definition ret {A} (a : A) : M A := fun w => (Returned a, w).

Definition bind {A B} (m : M A) (k : A -> M B) : M B :=
  fun w =>
    match m w with
    | (Returned a, w1) => k a w1
    | (Raised e, w1) => (Raised e, w1)
    end.

Definition raise {A} (e : exn) : M A := fun w => (Raised e, w).

(** [try: m  except Exception as e: h e] *)
Definition try_except {A} (m : M A) (h : exn -> M A) : M A :=
  fun w =>
    match m w with
    | (Returned a, w1) => (Returned a, w1)
    | (Raised e, w1) => h e w1
    end.

(** [try: m  finally: fin]: [fin] always runs; an exception of [fin]
    replaces the outcome of [m]. *)
Definition try_finally {A} (m : M A) (fin : M unit) : M A :=
  fun w =>
    match m w with
    | (r, w1) =>
        match fin w1 with
        | (Returned _, w2) => (r, w2)
        | (Raised e, w2) => (Raised e, w2)
        end
    end.

Local Notation "x <- m ;; k" := (bind m (fun x => k))
  (at level 61, m at next level, right associativity) : py_scope.
Local Notation "m ;; k" := (bind m (fun _ => k))
  (at level 61, right associativity) : py_scope.
Local Open Scope py_scope.

Definition log (ev : Event) : M unit :=
  fun w => (Returned tt,
            {| w_env := w_env w; w_next := w_next w; w_pool := w_pool w;
               w_trace := w_trace w ++ [ev] |}).

(** An interaction with the outside: recorded, then answered by the driver. *)
Definition call {X} (c : Call X) : M X :=
  fun w =>
    let '(r, env') := respond c (w_env w) in
    let w' := {| w_env := env'; w_next := w_next w; w_pool := w_pool w;
                 w_trace := w_trace w ++ [EvCall c] |} in
    match r with
    | inl e => (Raised e, w')
    | inr x => (Returned x, w')
    end.

(** A new Python object: its identity is not that of any earlier one. *)
Definition fresh : M handle :=
  fun w => (Returned (w_next w),
            {| w_env := w_env w; w_next := S (w_next w); w_pool := w_pool w;
               w_trace := w_trace w |}).

Definition notify (n : Notice) : M unit := log (EvNotice n).

Definition read_pool : M BrowserPool := fun w => (Returned (w_pool w), w).

Definition store (s : Store) : M unit :=
  fun w =>
    let p := w_pool w in
    let p' :=
      match s with
      | set_playwright v =>
          {| _playwright := v; _browser := _browser p; _last_used := _last_used p |}
      | set_browser v =>
          {| _playwright := _playwright p; _browser := v; _last_used := _last_used p |}
      | set_last_used t =>
          {| _playwright := _playwright p; _browser := _browser p; _last_used := t |}
      end in
    (Returned tt,
     {| w_env := w_env w; w_next := w_next w; w_pool := p';
        w_trace := w_trace w ++ [EvStore s] |}).

(** [async with self._lock: m].  One task is followed at a time, so the lock
    is free when the task reaches it; taking and giving it back are
    recorded. *)
Definition with_lock {A} (m : M A) : M A :=
  log EvAcquire ;; try_finally m (log EvRelease).

(* --------------------------------------------------------------------- *)
(** *** BrowserPool *)
(* --------------------------------------------------------------------- *)

Definition _create_browser : M handle :=
  pool <- read_pool ;;
  (match _playwright pool with
   | None =>
       call playwright_start ;;
       pw <- fresh ;;
       store (set_playwright (Some pw))
   | Some _ => ret tt
   end) ;;
  pool <- read_pool ;;
  match _playwright pool with
  | None => raise (Exception (u"'NoneType' object has no attribute 'chromium'"))
  | Some pw =>
      call (chromium_launch pw) ;;
      browser <- fresh ;;
      ret browser
  end.

Definition _is_browser_alive : M bool :=
  pool <- read_pool ;;
  match _browser pool with
  | None => ret false
  | Some b => try_except (call (browser_is_connected b)) (fun _ => ret false)
  end.

Definition _close_internal : M unit :=
  pool <- read_pool ;;
  match _browser pool with
  | Some b =>
      try_except (call (browser_close b)) (fun _ => ret tt) ;;
      store (set_browser None)
  | None => ret tt
  end.

(** [now - self._last_used > self.IDLE_TIMEOUT] *)
Definition idle_expired (now : float) (pool : BrowserPool) : bool :=
  (IDLE_TIMEOUT <? now - _last_used pool)%float.

Definition get_page : M Page :=
  with_lock (
    now <- call time_time ;;
    pool <- read_pool ;;
    (match _browser pool with
     | Some _ =>
         if idle_expired now pool then _close_internal
         else
           alive <- _is_browser_alive ;;
           if negb alive then store (set_browser None) else ret tt
     | None => ret tt
     end) ;;
    pool <- read_pool ;;
    (match _browser pool with
     | None =>
         browser <- _create_browser ;;
         store (set_browser (Some browser))
     | Some _ => ret tt
     end) ;;
    store (set_last_used now)) ;;
  pool <- read_pool ;;
  match _browser pool with
  | None => raise (Exception (u"'NoneType' object has no attribute 'new_page'"))
  | Some b =>
      i <- call (random_choice (length USER_AGENTS)) ;;
      call (browser_new_page b (nth (i mod length USER_AGENTS) USER_AGENTS [])) ;;
      p <- fresh ;;
      call (page_add_init_script p) ;;
      ret {| page_id := p; page_session := b |}
  end.

Definition close : M unit :=
  with_lock _close_internal ;;
  pool <- read_pool ;;
  match _playwright pool with
  | Some pw =>
      try_except (call (playwright_stop pw)) (fun _ => ret tt) ;;
      store (set_playwright None)
  | None => ret tt
  end.

(* --------------------------------------------------------------------- *)
(** *** Humanised input *)
(* --------------------------------------------------------------------- *)

(** [await asyncio.sleep(random.uniform(lo, hi))] *)
Definition random_delay (lo hi : float) : M unit := call (asyncio_sleep lo hi).

Fixpoint press_each (page : handle) (selector : str) (text : str) : M unit :=
  match text with
  | [] => ret tt
  | char :: rest =>
      call (locator_press_sequentially page selector char) ;;
      press_each page selector rest
  end.

Definition type_slowly (page : handle) (selector : str) (text : str) : M unit :=
  call (locator_clear page selector) ;;
  press_each page selector text.

(* --------------------------------------------------------------------- *)
(** *** Search result rows *)
(* --------------------------------------------------------------------- *)

Definition ROWS_SELECTOR : str := u"table.result-table-list tbody tr".

(** [(await el.inner_text()).strip() if el else default] *)
Definition text_or (el : option handle) (default : str) : M str :=
  match el with
  | Some e => t <- call (inner_text e) ;; ret (strip t)
  | None => ret default
  end.

(** [[(await a.inner_text()).strip() for a in els if (await a.inner_text()).strip()]]:
    the text is read once for the test and once more for the value. *)
Fixpoint stripped_texts (post : str -> str) (els : list handle) : M (list str) :=
  match els with
  | [] => ret []
  | a :: rest =>
      t <- call (inner_text a) ;;
      if falsy (strip t) then stripped_texts post rest
      else
        t' <- call (inner_text a) ;;
        ts <- stripped_texts post rest ;;
        ret (post (strip t') :: ts)
  end.

(** One [try: paper[k] = ...  except Exception: paper[k] = default] block
    setting a single key. *)
Definition field_or (paper : dict) (k : string) (m : M value) (default : value) : M dict :=
  try_except (v <- m ;; ret (dict_set paper k v))
             (fun _ => ret (dict_set paper k default)).

(** [_parse_paper_row].  [paper] is a local dictionary; every handler
    overwrites each key its block may have set, so the dictionary after a
    block does not depend on how far the block got. *)
Definition _parse_paper_row (row : handle) : M dict :=
  let paper : dict := [] in
  paper <-
    try_except
      (title_el <- call (query_selector (OnElement row) (u"a.fz14")) ;;
       title <- text_or title_el [] ;;
       let paper := dict_set paper "title" (VStr title) in
       url <- match title_el with
              | Some e =>
                  href <- call (get_attribute e (u"href")) ;;
                  ret (match href with Some h => VStr h | None => VNone end)
              | None => ret (VStr [])
              end ;;
       ret (dict_set paper "url" url))
      (fun _ => ret (dict_set (dict_set paper "title" (VStr [])) "url" (VStr []))) ;;
  paper <-
    field_or paper "authors"
      (authors <- call (query_selector_all (OnElement row) (u"td.author a")) ;;
       names <- stripped_texts (fun t => t) authors ;;
       ret (VStrs names))
      (VList []) ;;
  paper <-
    field_or paper "source"
      (source_el <- call (query_selector (OnElement row) (u"td.source a")) ;;
       t <- text_or source_el [] ;; ret (VStr t))
      (VStr []) ;;
  paper <-
    field_or paper "date"
      (date_el <- call (query_selector (OnElement row) (u"td.date")) ;;
       t <- text_or date_el [] ;; ret (VStr t))
      (VStr []) ;;
  paper <-
    field_or paper "cited_count"
      (cite_el <- call (query_selector (OnElement row) (u"td.quote a")) ;;
       t <- text_or cite_el (u"0") ;; ret (VStr t))
      (VStr (u"0")) ;;
  paper <-
    field_or paper "download_count"
      (dl_el <- call (query_selector (OnElement row) (u"td.download a")) ;;
       t <- text_or dl_el (u"0") ;; ret (VStr t))
      (VStr (u"0")) ;;
  ret paper.

(** [paper[k]]: a missing key raises [KeyError]. *)
Definition dict_item (d : dict) (k : string) : M value :=
  match dict_get d k with
  | Some v => ret v
  | None => raise (Exception (u"KeyError"))
  end.

(** The [for row in rows] loop of [_collect_results]. *)
Fixpoint append_rows (rows : list handle) (page_num : Z) (all_papers : list dict)
  : M (list dict) :=
  match rows with
  | [] => ret all_papers
  | row :: rest =>
      paper <- _parse_paper_row row ;;
      title <- dict_item paper "title" ;;
      if truthy title
      then append_rows rest page_num (all_papers ++ [dict_set paper "page" (VInt page_num)])
      else append_rows rest page_num all_papers
  end.

(** The rows the collector works on: those visible at once or, when there
    are none, those visible after waiting for the first one. *)
Definition visible_rows (page : handle) : M (list handle) :=
  rows <- call (query_selector_all (OnPage page) ROWS_SELECTOR) ;;
  match rows with
  | [] =>
      call (page_wait_for_selector page ROWS_SELECTOR) ;;
      call (query_selector_all (OnPage page) ROWS_SELECTOR)
  | _ => ret rows
  end.

(** First [try] of the loop body: the rows of the current page.  The list
    [all_papers] only grows by whole rows, and (see [append_rows_returns])
    nothing raises once the rows are at hand, so a failure leaves the list as
    it was on entry. *)
Definition collect_page (page : handle) (page_num : Z) (all_papers : list dict)
  : M (list dict) :=
  try_except
    (rows <- visible_rows page ;;
     append_rows rows page_num all_papers)
    (fun _ => ret all_papers).

(** Second [try] of the loop body: [true] to go on with the next page,
    [false] for [break]. *)
Definition goto_next (page : handle) : M bool :=
  try_except
    (next_btn <- call (query_selector (OnPage page) (u"#PageNext")) ;;
     match next_btn with
     | Some btn =>
         enabled <- call (is_enabled btn) ;;
         if enabled then
           call (element_click btn) ;;
           random_delay 1.5 2.5 ;;
           ret true
         else ret false
     | None => ret false
     end)
    (fun _ => ret false).

(** [range(lo, hi)] *)
Definition py_range (lo hi : Z) : list Z :=
  map (fun i => (lo + Z.of_nat i)%Z) (seq 0 (Z.to_nat (hi - lo))).

(** The [for page_num in ...] loop of [_collect_results]. *)
Fixpoint collect_loop (page : handle) (pages : Z) (page_nums : list Z)
    (all_papers : list dict) : M (list dict) :=
  match page_nums with
  | [] => ret all_papers
  | page_num :: rest =>
      all_papers <- collect_page page page_num all_papers ;;
      if (page_num <? pages)%Z then
        go_on <- goto_next page ;;
        if go_on then collect_loop page pages rest all_papers
        else ret all_papers
      else collect_loop page pages rest all_papers
  end.

Definition _collect_results (page : handle) (pages : Z) : M (list dict) :=
  collect_loop page pages (py_range 1 (pages + 1)) [].

(* --------------------------------------------------------------------- *)
(** *** Search implementations *)
(* --------------------------------------------------------------------- *)

(** A double quote, for selectors that contain one. *)
Definition dq : str := [34%N].

(** [if value:] on the result of [dict.get]. *)
Definition present (v : option str) : bool :=
  match v with Some s => negb (falsy s) | None => false end.

(** The sort step shared, line for line, by both search paths. *)
Definition apply_sort (page : handle) (resolved_sort : str) : M unit :=
  if negb (str_eqb resolved_sort (u"相关度")) then
    match table_get SORT_TYPES resolved_sort with
    | Some sort_id =>
        if negb (falsy sort_id) then
          try_except
            (call (page_click page (u"#" ++ sort_id)) ;;
             random_delay 1.5 2.5 ;;
             call (page_wait_for_selector page ROWS_SELECTOR))
            (fun _ => ret tt)
        else ret tt
    | None => ret tt
    end
  else ret tt.

Definition _simple_search (page : handle) (query search_type sort : str) (pages : Z)
  : M dict :=
  let resolved_type := resolve_search_type search_type in
  let resolved_sort := resolve_sort_type sort in
  call (page_goto page (u"https://www.cnki.net/")) ;;
  random_delay 1 2 ;;
  (if negb (str_eqb resolved_type (u"主题")) then
     let value := table_get SEARCH_TYPE_VALUES resolved_type in
     match value with
     | Some v =>
         if present value then
           call (page_click page (u"#DBFieldBox")) ;;
           call (asyncio_sleep 0.8 0.8) ;;
           call (page_click page (u"#DBFieldList a[value=" ++ dq ++ v ++ dq ++ u"]")) ;;
           call (asyncio_sleep 0.5 0.5)
         else ret tt
     | None => ret tt
     end
   else ret tt) ;;
  type_slowly page (u"#txt_SearchText") query ;;
  call (page_click page (u".search-btn")) ;;
  random_delay 2 3 ;;
  apply_sort page resolved_sort ;;
  all_papers <- _collect_results page pages ;;
  ret [ ("query", VStr query); ("search_type", VStr resolved_type);
        ("sort", VStr resolved_sort); ("total_pages", VInt pages);
        ("total_papers", VInt (Z.of_nat (length all_papers)));
        ("papers", VList (map VDict all_papers)) ]%string.

Definition _professional_search (page : handle) (query search_type journal sort : str)
    (pages : Z) : M dict :=
  let resolved_type := resolve_search_type search_type in
  let resolved_sort := resolve_sort_type sort in
  let field_code :=
    match table_get PROFESSIONAL_SEARCH_FIELDS resolved_type with
    | Some c => c
    | None => u"SU"
    end in
  let expr := u"(" ++ field_code ++ u"='" ++ query ++ u"') AND (JN='" ++ journal ++ u"')" in
  call (page_goto page (u"https://kns.cnki.net/kns8s/AdvSearch")) ;;
  random_delay 1 2 ;;
  try_except (call (page_click page (u"li.professional-search")))
             (fun _ => call (page_get_by_text_click page (u"专业检索"))) ;;
  random_delay 0.5 1 ;;
  call (locator_fill page
          (u"textarea.professional-input, textarea#ExpertValue, textarea.search-input")
          expr) ;;
  random_delay 0.3 0.5 ;;
  call (locator_click page (u"div.professional-search input.btn-search, input.btn-search")) ;;
  random_delay 2 3 ;;
  apply_sort page resolved_sort ;;
  all_papers <- _collect_results page pages ;;
  ret [ ("query", VStr query); ("search_type", VStr resolved_type);
        ("journal", VStr journal); ("sort", VStr resolved_sort);
        ("expression", VStr expr); ("total_pages", VInt pages);
        ("total_papers", VInt (Z.of_nat (length all_papers)));
        ("papers", VList (map VDict all_papers)) ]%string.

(* --------------------------------------------------------------------- *)
(** *** Paper detail *)
(* --------------------------------------------------------------------- *)

(** The local [text(selector, default)] of [_get_paper_detail]. *)
Definition text (page : handle) (selector : str) (default : str) : M str :=
  el <- call (query_selector (OnPage page) selector) ;;
  text_or el default.

(** [await a or await b] on strings. *)
Definition or_else (a b : M str) : M str :=
  x <- a ;;
  if falsy x then b else ret x.

(** The local [texts(selector)]: each text is read once. *)
Fixpoint nonempty_texts (els : list handle) : M (list str) :=
  match els with
  | [] => ret []
  | el :: rest =>
      t <- call (inner_text el) ;;
      ts <- nonempty_texts rest ;;
      ret (if falsy (strip t) then ts else strip t :: ts)
  end.

Definition texts (page : handle) (selector : str) : M (list str) :=
  els <- call (query_selector_all (OnPage page) selector) ;;
  nonempty_texts els.

(** Splitting of the combined "year,volume(issue):pages" text. *)
Definition parse_info (paper : dict) (info_text : str) : dict :=
  if char_in 44 info_text then
    let parts := split_on 44 info_text in
    let paper := dict_set paper "year" (VStr (strip (nth 0 parts []))) in
    if 1 <? length parts then
      let rest := nth 1 parts [] in
      let paper :=
        if char_in 40 rest && char_in 41 rest then
          let paper :=
            dict_set paper "volume" (VStr (strip (nth 0 (split_on 40 rest) []))) in
          dict_set paper "issue"
            (VStr (strip (nth 0 (split_on 41 (nth 1 (split_on 40 rest) [])) [])))
        else paper in
      if char_in 58 rest then
        dict_set paper "pages" (VStr (strip (last (split_on 58 rest) [])))
      else paper
    else paper
  else paper.

Definition _get_paper_detail (page : handle) (url : str) : M dict :=
  let paper : dict :=
    [ ("url", VStr url); ("title", VStr []); ("title_en", VStr []);
      ("authors", VList []); ("institutions", VList []); ("abstract", VStr []);
      ("abstract_en", VStr []); ("keywords", VList []); ("keywords_en", VList []);
      ("source", VStr []); ("year", VStr []); ("volume", VStr []);
      ("issue", VStr []); ("pages", VStr []); ("doi", VStr []);
      ("cited_count", VStr []); ("download_count", VStr []); ("fund", VStr []);
      ("classification", VStr []) ]%string in
  call (page_goto page url) ;;
  random_delay 1.5 2.5 ;;
  title <- or_else (text page (u"div.wx-tit h1") []) (text page (u"h1") []) ;;
  let paper := dict_set paper "title" (VStr title) in
  title_en <- text page (u"div.wx-tit h2") [] ;;
  let paper := dict_set paper "title_en" (VStr title_en) in
  authors <- texts page (u"h3.author span a") ;;
  let paper := dict_set paper "authors" (VStrs authors) in
  institutions <- texts page (u"h3.orgn span a") ;;
  let paper := dict_set paper "institutions" (VStrs institutions) in
  abstract <- text page (u"#ChDivSummary") [] ;;
  let paper := dict_set paper "abstract" (VStr abstract) in
  abstract_en <- text page (u"#EnChDivSummary") [] ;;
  let paper := dict_set paper "abstract_en" (VStr abstract_en) in
  kw_els <- call (query_selector_all (OnPage page) (u"p.keywords a")) ;;
  keywords <- stripped_texts (rstrip_chars (u";；")) kw_els ;;
  let paper := dict_set paper "keywords" (VStrs keywords) in
  source <- text page (u"div.top-tip a[href*=" ++ dq ++ u"navi.cnki.net" ++ dq ++ u"]") [] ;;
  let paper := dict_set paper "source" (VStr (rstrip_chars (u" .") source)) in
  info_text <- text page (u"div.top-tip span") [] ;;
  let paper := parse_info paper info_text in
  doi <- text page (u"li.top-space:has-text(" ++ dq ++ u"DOI" ++ dq ++ u") p") [] ;;
  let paper := dict_set paper "doi" (VStr doi) in
  cited <- or_else (text page (u"#refs a") [])
             (text page (u"div.total-inform span:has-text(" ++ dq ++ u"被引" ++ dq ++ u") + em") []) ;;
  let paper := dict_set paper "cited_count" (VStr cited) in
  downloads <- or_else (text page (u"#DownLoadParts a") [])
                 (text page (u"div.total-inform span:has-text(" ++ dq ++ u"下载" ++ dq ++ u") + em") []) ;;
  let paper := dict_set paper "download_count" (VStr downloads) in
  fund <- or_else (text page (u"li:has-text(" ++ dq ++ u"基金" ++ dq ++ u") p") [])
            (text page (u"p.funds span") []) ;;
  let paper := dict_set paper "fund" (VStr fund) in
  classification <- text page (u"li:has-text(" ++ dq ++ u"分类号" ++ dq ++ u") p") [] ;;
  let paper := dict_set paper "classification" (VStr classification) in
  ret paper.

(* --------------------------------------------------------------------- *)
(** *** Tools *)
(* --------------------------------------------------------------------- *)

Definition opt_str (o : option str) : value :=
  match o with Some s => VStr s | None => VNone end.

(** [if journal:] *)
Definition journal_given (journal : option str) : bool := present journal.

(** The [try] block of [search_cnki]. *)
Definition search_body (page : handle) (query search_type : str) (journal : option str)
    (pages : Z) (sort : str) : M dict :=
  match journal with
  | Some j =>
      if journal_given journal
      then _professional_search page query search_type j sort pages
      else _simple_search page query search_type sort pages
  | None => _simple_search page query search_type sort pages
  end.

(** The [except Exception as e] block of [search_cnki]. *)
Definition search_error (e : exn) : dict :=
  [ ("isError", VBool true); ("error", VStr (exn_msg e)); ("papers", VList []) ]%string.

(** [f"搜索 CNKI: query='{query}', journal={journal}"] *)
Definition search_opening (query : str) (journal : option str) : Notice :=
  ctx_info [VStr (u"搜索 CNKI: query='"); VStr query;
            VStr (u"', journal="); opt_str journal].

Definition search_cnki (query search_type : str) (journal : option str) (pages : Z)
    (sort : str) : M dict :=
  notify (search_opening query journal) ;;
  notify (ctx_report_progress 0 100) ;;
  page <- get_page ;;
  result <-
    try_finally
      (try_except
         (search_body (page_id page) query search_type journal pages sort)
         (fun e => ret (search_error e)))
      (call (page_close (page_id page))) ;;
  notify (ctx_report_progress 100 100) ;;
  (if dict_truthy result "isError" then
     notify (ctx_error [VStr (u"搜索失败: ");
                        match dict_get result "error" with Some v => v | None => VNone end])
   else
     notify (ctx_info [VStr (u"找到 ");
                       match dict_get result "total_papers" with
                       | Some v => v
                       | None => VInt 0
                       end;
                       VStr (u" 篇论文")])) ;;
  ret result.

(** The guard of [get_paper_detail]: [url and "cnki" in url.lower()]. *)
Definition is_cnki_link (url : str) : bool :=
  negb (falsy url) && contains (u"cnki") (lower url).

(** The [except Exception as e] block of [get_paper_detail]. *)
Definition detail_error (url : str) (e : exn) : dict :=
  [ ("isError", VBool true); ("error", VStr (exn_msg e)); ("url", VStr url) ]%string.

(** The payload of the guard of [get_paper_detail]. *)
Definition not_cnki_error : dict :=
  [ ("isError", VBool true); ("error", VStr (u"URL 必须是 CNKI 链接")) ]%string.

(** [f"获取论文详情: {url[:80]}..."] *)
Definition detail_opening (url : str) : Notice :=
  ctx_info [VStr (u"获取论文详情: "); VStr (take 80 url); VStr (u"...")].

Definition get_paper_detail (url : str) : M dict :=
  if negb (is_cnki_link url) then ret not_cnki_error
  else
    notify (detail_opening url) ;;
    notify (ctx_report_progress 0 100) ;;
    page <- get_page ;;
    result <-
      try_finally
        (try_except
           (_get_paper_detail (page_id page) url)
           (fun e => ret (detail_error url e)))
        (call (page_close (page_id page))) ;;
    notify (ctx_report_progress 100 100) ;;
    ret result.

(** The [for link in links] loop of [find_best_match].  The two lists are
    locals of the enclosing [try]; an exception while reading a link leaves
    the loop with what was appended so far, and the enclosing handler only
    passes: the loop ends there and hands back the lists. *)
Fixpoint gather_links (links : list handle) (titles urls : list str)
  : M (list str * list str) :=
  match links with
  | [] => ret (titles, urls)
  | link :: rest =>
      got <- try_except
               (t <- call (inner_text link) ;;
                href <- call (get_attribute link (u"href")) ;;
                ret (Some (strip t, href)))
               (fun _ => ret None) ;;
      match got with
      | None => ret (titles, urls)
      | Some (t, href) =>
          if negb (falsy t) then
            gather_links rest (titles ++ [t])
              (urls ++ [if present href then match href with Some h => h | None => [] end
                        else []])
          else gather_links rest titles urls
      end
  end.

(** [l[i]]: out of range raises [IndexError]. *)
Definition list_item {A} (l : list A) (i : nat) : M A :=
  match nth_error l i with
  | Some x => ret x
  | None => raise (Exception (u"list index out of range"))
  end.

(** First half of the [try] block of [find_best_match]: the search and the
    candidate titles with their links. *)
Definition find_candidates (p : handle) (query : str) : M (list str * list str) :=
  call (page_goto p (u"https://www.cnki.net/")) ;;
  random_delay 1 2 ;;
  type_slowly p (u"#txt_SearchText") query ;;
  call (page_click p (u".search-btn")) ;;
  random_delay 2 3 ;;
  try_except
    (call (page_wait_for_selector p (u"a.fz14")) ;;
     links <- call (query_selector_all (OnPage p) (u"#gridTable a.fz14")) ;;
     gather_links links [] [])
    (fun _ => ret ([], [])).

(** The payload for an empty candidate list. *)
Definition no_match (query : str) : dict :=
  [ ("query", VStr query); ("best_match", VNone);
    ("message", VStr (u"未找到结果")) ]%string.

(** Second half of the [try] block: [if not titles: ... else: ...]. *)
Definition match_result (query : str) (titles urls : list str) : M dict :=
  match titles with
  | [] => ret (no_match query)
  | _ =>
      let idx := find_closest_title query titles in
      title <- list_item titles idx ;;
      url <- list_item urls idx ;;
      ret [ ("query", VStr query);
            ("best_match", VDict [ ("title", VStr title); ("url", VStr url) ]%string);
            ("total_results", VInt (Z.of_nat (length titles))) ]%string
  end.

Definition best_match_body (p : handle) (query : str) : M dict :=
  found <- find_candidates p query ;;
  match_result query (fst found) (snd found).

(** The [except Exception as e] block of [find_best_match]. *)
Definition match_error (e : exn) : dict :=
  [ ("isError", VBool true); ("error", VStr (exn_msg e)) ]%string.

(** [f"查找匹配: '{query[:50]}'"] *)
Definition match_opening (query : str) : Notice :=
  ctx_info [VStr (u"查找匹配: '"); VStr (take 50 query); VStr (u"'")].

Definition find_best_match (query : str) : M dict :=
  notify (match_opening query) ;;
  notify (ctx_report_progress 0 100) ;;
  page <- get_page ;;
  result <-
    try_finally
      (try_except
         (best_match_body (page_id page) query)
         (fun e => ret (match_error e)))
      (call (page_close (page_id page))) ;;
  notify (ctx_report_progress 100 100) ;;
  ret result.

End Model.

Arguments World {D}.
Arguments M {D} A.

(* --------------------------------------------------------------------- *)
(** *** Server lifetime *)
(* --------------------------------------------------------------------- *)

(** [pool = BrowserPool()] *)
Definition new_pool {D : Driver} : M unit :=
  fun w => (Returned tt,
            {| w_env := w_env w; w_next := w_next w; w_pool := BrowserPool_init;
               w_trace := w_trace w |}).

(** [lifespan]: the server runs ([serve], at the [yield]) between the
    creation of the pool and its closing in the [finally] block. *)
Definition lifespan {D : Driver} {A} (serve : M A) : M A :=
  bind new_pool (fun _ => try_finally serve close).

(* ===================================================================== *)
(** ** Vocabulary of the statements *)
(* ===================================================================== *)

(** The world at server start: a new pool, nothing allocated, nothing done. *)
Definition start_world {D : Driver} (e : Env) : World :=
  {| w_env := e; w_next := 0; w_pool := BrowserPool_init; w_trace := [] |}.

(** The handles held by the pool are objects allocated earlier. *)
Definition pool_wf {D : Driver} (w : World) : Prop :=
  (forall b, _browser (w_pool w) = Some b -> b < w_next w)
  /\ (forall p, _playwright (w_pool w) = Some p -> p < w_next w).

(** The rows of one page as the extraction layer reads them, one after the
    other. *)
Fixpoint parse_all {D : Driver} (rows : list handle) (w : World) : list dict * World :=
  match rows with
  | [] => ([], w)
  | row :: rest =>
      match _parse_paper_row row w with
      | (Returned paper, w1) =>
          let '(papers, w2) := parse_all rest w1 in (paper :: papers, w2)
      | (Raised _, w1) => ([], w1)
      end
  end.

(** [if paper["title"]] *)
Definition has_title (paper : dict) : bool := dict_truthy paper "title".

(** [paper["page"] = page_num] *)
Definition tag_page (page_num : Z) (paper : dict) : dict :=
  dict_set paper "page" (VInt page_num).

(** The keys of a parsed row, in the order they are set. *)
Definition ROW_KEYS : list string :=
  [ "title"; "url"; "authors"; "source"; "date"; "cited_count"; "download_count" ]%string.

(** The page numbers carried by the records of a search payload. *)
Definition payload_pages (payload : dict) : list (option value) :=
  match dict_get payload "papers" with
  | Some (VList papers) =>
      map (fun p => match p with VDict d => dict_get d "page" | _ => None end) papers
  | _ => []
  end.

(** The next control is present and enabled, and clicking it and pacing
    afterwards raise nothing. *)
Definition next_works {D : Driver} (page : handle) (e : Env) : bool :=
  match respond (query_selector (OnPage page) (u"#PageNext")) e with
  | (inr (Some btn), e1) =>
      match respond (is_enabled btn) e1 with
      | (inr true, e2) =>
          match respond (element_click btn) e2 with
          | (inr _, e3) =>
              match respond (asyncio_sleep 1.5 2.5) e3 with
              | (inr _, _) => true
              | (inl _, _) => false
              end
          | (inl _, _) => false
          end
      | _ => false
      end
  | _ => false
  end.

(** The records of result pages [page_num], [page_num + 1], ... ([k] pages
    in all) when the next control works after each of them but the last;
    [None] when it does not. *)
Fixpoint first_pages {D : Driver} (page : handle) (k : nat) (page_num : Z)
    (all_papers : list dict) (w : World) : option (list dict * World) :=
  match k with
  | 0 => None
  | S k' =>
      match collect_page page page_num all_papers w with
      | (Returned papers, w1) =>
          match k' with
          | 0 => Some (papers, w1)
          | S _ =>
              match goto_next page w1 with
              | (Returned true, w2) => first_pages page k' (page_num + 1) papers w2
              | _ => None
              end
          end
      | (Raised _, _) => None
      end
  end.

(** The world once a notification has gone out. *)
Definition announce {D : Driver} (n : Notice) (w : World) : World :=
  snd (notify n w).

(** The world in which a tool asks for its page: its two opening
    notifications are out. *)
Definition opened {D : Driver} (opening : Notice) (w : World) : World :=
  announce (ctx_report_progress 0 100) (announce opening w).

(** What the tools share once their opening notifications are out, from the
    world [w0]: a failed acquisition propagates; otherwise the [try] block
    with its handler yields a payload (that of the block, or the error
    payload of the handler), the page is closed next, and the outcome is the
    payload unless closing raised. *)
Definition lease_contract {D : Driver} (w0 : World) (body : handle -> M dict)
    (on_error : exn -> dict) (r : Outcome dict) (w' : World) : Prop :=
  (forall e w1, get_page w0 = (Raised e, w1) -> r = Raised e /\ w' = w1)
  /\ (forall page w1,
        get_page w0 = (Returned page, w1) ->
        exists payload w2,
          try_except (body (page_id page)) (fun e => ret (on_error e)) w1
            = (Returned payload, w2)
          /\ (body (page_id page) w1 = (Returned payload, w2)
              \/ exists e, body (page_id page) w1 = (Raised e, w2)
                           /\ payload = on_error e)
          /\ (exists later,
                w_trace w' = w_trace w2 ++ EvCall (page_close (page_id page)) :: later)
          /\ (forall x env3,
                respond (page_close (page_id page)) (w_env w2) = (inr x, env3) ->
                r = Returned payload)
          /\ (forall e env3,
                respond (page_close (page_id page)) (w_env w2) = (inl e, env3) ->
                r = Raised e)).

(** The resolvers as the specification words them: the normalised input is
    looked up in the alias table, then in the canonical-name table. *)
Definition resolve_field_spec (name : str) : str :=
  let s := strip (lower name) in
  match table_get SEARCH_TYPE_ALIASES s with
  | Some canonical => canonical
  | None => if table_mem SEARCH_TYPES s then s else u"主题"
  end.

Definition resolve_sort_spec (name : str) : str :=
  let s := strip (lower name) in
  match table_get SORT_TYPE_ALIASES s with
  | Some canonical => canonical
  | None => if table_mem SORT_TYPES s then s else u"相关度"
  end.

(** The specification's notion of a URL of the target portal: its host is
    [cnki.net] or a subdomain of it. *)
Fixpoint after_scheme (s : str) : option str :=
  match s with
  | [] => None
  | _ :: r => if is_prefix (u"://") s then Some (skipn 3 s) else after_scheme r
  end.

Fixpoint take_while (p : N -> bool) (s : str) : str :=
  match s with
  | [] => []
  | c :: r => if p c then c :: take_while p r else []
  end.

Definition url_host (url : str) : str :=
  let rest := match after_scheme url with Some r => r | None => url end in
  take_while (fun c => negb (char_in c (u"/?#:"))) rest.

Definition is_suffix (suffix s : str) : bool := is_prefix (rev suffix) (rev s).

Definition in_portal_domain (url : str) : bool :=
  let host := lower (url_host url) in
  str_eqb host (u"cnki.net") || is_suffix (u".cnki.net") host.


(** Kinds of events looked for in a trace. *)
Definition is_engine_start (ev : Event) : bool :=
  match ev with EvCall playwright_start => true | _ => false end.


Definition is_browser_close (ev : Event) : bool :=
  match ev with EvCall (browser_close _) => true | _ => false end.

Definition is_connected_query (ev : Event) : bool :=
  match ev with EvCall (browser_is_connected _) => true | _ => false end.

(** The key presses that type [text], first character first. *)
Definition presses (page : handle) (selector : str) (text : str) : list Event :=
  map (fun c => EvCall (locator_press_sequentially page selector c)) text.

(** The environment once the driver has answered the key presses of [text]
    one after the other and none has raised; [None] when one raises. *)
Fixpoint presses_answered {D : Driver} (page : handle) (selector text : str) (e : Env)
  : option Env :=
  match text with
  | [] => Some e
  | c :: rest =>
      match respond (locator_press_sequentially page selector c) e with
      | (inr _, e1) => presses_answered page selector rest e1
      | (inl _, _) => None
      end
  end.

(** The world [w] after further calls: the driver is in state [e] and the
    events [evs] have been added to the trace. *)
Definition after_calls {D : Driver} (w : World) (e : Env) (evs : list Event) : World :=
  {| w_env := e; w_next := w_next w; w_pool := w_pool w; w_trace := w_trace w ++ evs |}.

(** The search fields the professional search has no code for. *)
Definition FIELDS_SEARCHED_AS_SUBJECT : list str :=
  [u"篇关摘"; u"基金"; u"参考文献"; u"分类号"; u"文献来源"].

(** Each number is at least the one before it, the first at least [lo]. *)
Fixpoint ascending_from (lo : Z) (l : list Z) : Prop :=
  match l with
  | [] => True
  | x :: r => (lo <= x)%Z /\ ascending_from x r
  end.

(** A record of page [n] with a title. *)
Definition record_of_page (n : Z) (paper : dict) : Prop :=
  dict_get paper "page" = Some (VInt n) /\ dict_truthy paper "title" = true.

(** The records are in page order: their tags are [ns], ascending, none
    above [b] or above [pages], and each record has a title. *)
Definition in_page_order (pages b : Z) (papers : list dict) : Prop :=
  exists ns,
    map (fun p => dict_get p "page") papers = map (fun n => Some (VInt n)) ns
    /\ ascending_from 1 ns
    /\ Forall (fun n => n <= b /\ n <= pages)%Z ns
    /\ Forall (fun p => dict_truthy p "title" = true) papers.

(** [k in d] for a dictionary. *)
Definition dict_mem (d : dict) (k : string) : bool :=
  existsb (String.eqb k) (map fst d).

(** The keys of a detail record, in the order of the literal. *)
Definition DETAIL_KEYS : list string :=
  [ "url"; "title"; "title_en"; "authors"; "institutions"; "abstract";
    "abstract_en"; "keywords"; "keywords_en"; "source"; "year"; "volume";
    "issue"; "pages"; "doi"; "cited_count"; "download_count"; "fund";
    "classification" ]%string.

(** The text "year,volume(issue):pages". *)
Definition info_text_of (year volume issue pages : str) : str :=
  year ++ 44%N :: volume ++ 40%N :: issue ++ 41%N :: 58%N :: pages.

(** The record of a row in which nothing is found. *)
Definition EMPTY_ROW : dict :=
  [ ("title", VStr []); ("url", VStr []); ("authors", VList []);
    ("source", VStr []); ("date", VStr []); ("cited_count", VStr (u"0"));
    ("download_count", VStr (u"0")) ]%string.

(** The driver finds none of the elements looked for inside [row]: each
    lookup raises or comes back empty. *)
Definition nothing_found {D : Driver} (row : handle) : Prop :=
  (forall sel e, match fst (respond (query_selector (OnElement row) sel) e) with
                 | inr (Some _) => False
                 | _ => True
                 end)
  /\ (forall sel e, match fst (respond (query_selector_all (OnElement row) sel) e) with
                    | inr (_ :: _) => False
                    | _ => True
                    end).

(** The payload a run came back with (empty when it raised). *)
Definition payload_of (r : Outcome dict) : dict :=
  match r with Returned payload => payload | Raised _ => [] end.

(* ===================================================================== *)
(** ** A mock portal *)
(* ===================================================================== *)

(** A small portal to run the program against: it shows result pages one
    after the other, each with its rows; a row may have a title link. *)
Record Mock := mkMock {
  mock_now : float;                                (* what the clock reads *)
  mock_rows : nat -> list handle;              (* rows of the n-th result page *)
  mock_links : list handle;                    (* the [a.fz14] links of the page *)
  mock_child : handle -> str -> option handle; (* [query_selector] on an element *)
  mock_text : handle -> str;                   (* [inner_text] of an element *)
  mock_href : handle -> option str;            (* the [href] of an element *)
  mock_next_enabled : nat -> bool;             (* [#PageNext] on the n-th page *)
  mock_fault : forall X, Call X -> bool        (* the calls that raise *)
}.

Definition NEXT_BUTTON : handle := 999.

(** The answers of the mock portal; its state is the number of the result
    page on display, from 0. *)
Definition mock_respond (m : Mock) (X : Type) (c : Call X) (shown : nat)
  : (exn + X) * nat :=
  if mock_fault m c then (inl (Exception (u"mock fault")), shown)
  else
    match c in Call T return (exn + T) * nat with
    | time_time => (inr (mock_now m), shown)
    | random_choice _ => (inr 0, shown)
    | browser_is_connected _ => (inr true, shown)
    | query_selector (OnPage _) sel =>
        (inr (if str_eqb sel (u"#PageNext") then Some NEXT_BUTTON else None), shown)
    | query_selector (OnElement e) sel => (inr (mock_child m e sel), shown)
    | query_selector_all (OnPage _) sel =>
        (inr (if str_eqb sel ROWS_SELECTOR then mock_rows m shown
              else if str_eqb sel (u"#gridTable a.fz14") then mock_links m
              else []), shown)
    | query_selector_all (OnElement _) _ => (inr [], shown)
    | inner_text e => (inr (mock_text m e), shown)
    | get_attribute e _ => (inr (mock_href m e), shown)
    | is_enabled _ => (inr (mock_next_enabled m shown), shown)
    | element_click _ => (inr tt, S shown)
    | _ => (inr tt, shown)
    end.

Definition mock_driver (m : Mock) : Driver :=
  {| Env := nat; respond := mock_respond m |}.

(** The mock portal at server start, showing its first result page. *)
Definition mock_start (m : Mock) : @World (mock_driver m) :=
  @start_world (mock_driver m) 0.

Definition no_fault (X : Type) (c : Call X) : bool := false.

(** An empty portal with the given faults. *)
Definition empty_portal (fault : forall X, Call X -> bool) : Mock :=
  {| mock_now := 1000; mock_rows := fun _ => []; mock_links := [];
     mock_child := fun _ _ => None; mock_text := fun _ => [];
     mock_href := fun _ => None; mock_next_enabled := fun _ => false;
     mock_fault := fault |}.

(** An empty portal on which nothing fails. *)
Definition quiet : Mock := empty_portal no_fault.

(** A portal whose browser cannot be launched. *)
Definition launch_fails (X : Type) (c : Call X) : bool :=
  match c with chromium_launch _ => true | _ => false end.

Definition no_browser : Mock := empty_portal launch_fails.

(** A portal whose pages cannot be closed. *)
Definition page_close_fails (X : Type) (c : Call X) : bool :=
  match c with page_close _ => true | _ => false end.

Definition sticky_pages : Mock := empty_portal page_close_fails.

(** A portal on which navigation fails. *)
Definition goto_fails (X : Type) (c : Call X) : bool :=
  match c with page_goto _ _ => true | _ => false end.

Definition unreachable : Mock := empty_portal goto_fails.

(** Rows with a title link: the link of row [e] is element [100 + e], and
    its text is the character numbered [e]. *)
Definition titled_rows (rows : nat -> list handle) (next_enabled : nat -> bool) : Mock :=
  {| mock_now := 1000;
     mock_rows := rows;
     mock_links := [];
     mock_child := fun e sel => if str_eqb sel (u"a.fz14") then Some (100 + e) else None;
     mock_text := fun e => [N.of_nat e];
     mock_href := fun _ => None;
     mock_next_enabled := next_enabled;
     mock_fault := no_fault |}.

(** A portal with three result pages of two, one and two titled rows; its
    next control is enabled on the first page only. *)
Definition three_pages : Mock :=
  titled_rows (fun n => match n with 0 => [1; 2] | 1 => [3] | _ => [4; 5] end)
              (fun n => n <? 1).

(** The portal of the end-to-end scenario: ten rows on the first page, five
    on the second, and a next control that is enabled, then disabled. *)
Definition ten_and_five : Mock :=
  titled_rows (fun n => match n with 0 => seq 1 10 | _ => seq 11 5 end)
              (fun n => n <? 1).

(** A portal whose only result row has no title link. *)
Definition untitled : Mock :=
  {| mock_now := 1000; mock_rows := fun _ => [1]; mock_links := [];
     mock_child := fun _ _ => None; mock_text := fun _ => [];
     mock_href := fun _ => None; mock_next_enabled := fun _ => false;
     mock_fault := no_fault |}.

(** A portal whose search shows two links, titled "ab" and "abc"; only the
    first has an address. *)
Definition two_links : Mock :=
  {| mock_now := 1000; mock_rows := fun _ => []; mock_links := [7; 8];
     mock_child := fun _ _ => None;
     mock_text := fun e => if e =? 7 then u"ab" else u"abc";
     mock_href := fun e => if e =? 7 then Some (u"/kcms/a") else None;
     mock_next_enabled := fun _ => false;
     mock_fault := no_fault |}.

(** A portal on which the key "b" cannot be pressed. *)
Definition key_b_fails (X : Type) (c : Call X) : bool :=
  match c with
  | locator_press_sequentially _ _ char => (char =? 98)%N
  | _ => false
  end.

Definition stuck_key : Mock := empty_portal key_b_fails.

(** A portal whose browser no longer answers the connectivity check. *)
Definition connection_check_fails (X : Type) (c : Call X) : bool :=
  match c with browser_is_connected _ => true | _ => false end.

Definition lost_browser : Mock := empty_portal connection_check_fails.

(** Worlds in which the pool holds session 1 of engine 0, last used at time
    900, on portals whose clock reads 1000. *)
Definition warm_world : @World (mock_driver quiet) :=
  @mkWorld (mock_driver quiet) 0 2
    {| _playwright := Some 0; _browser := Some 1; _last_used := 900 |} [].

Definition lost_world : @World (mock_driver lost_browser) :=
  @mkWorld (mock_driver lost_browser) 0 2
    {| _playwright := Some 0; _browser := Some 1; _last_used := 900 |} [].



(** A world in which the pool holds session 1 of engine 0, last used at
    time 0, on a portal whose clock reads 1000. *)
Definition idle_world : @World (mock_driver quiet) :=
  @mkWorld (mock_driver quiet) 0 2
    {| _playwright := Some 0; _browser := Some 1; _last_used := 0 |} [].

(** A link outside the portal whose path mentions it. *)
Definition foreign_url : str := u"https://example.com/cnki/paper.html".

(* ===================================================================== *)
(** * Properties *)
(* ===================================================================== *)

(* --------------------------------------------------------------------- *)
(** ** Strings *)
(* --------------------------------------------------------------------- *)

Lemma str_eqb_eq a b : str_eqb a b = true <-> a = b.
Proof.
  revert b; induction a as [|x a IH]; intros [|y b]; simpl; split;
    try congruence; try reflexivity.
  - intros H. apply andb_true_iff in H as [Hx Hab].
    apply N.eqb_eq in Hx. apply IH in Hab. congruence.
  - intros H. injection H as -> ->. rewrite N.eqb_refl. simpl. now apply IH.
Qed.

Lemma str_eqb_refl a : str_eqb a a = true.
Proof. now apply str_eqb_eq. Qed.

Lemma char_in_In c t : char_in c t = true <-> In c t.
Proof.
  unfold char_in. rewrite existsb_exists. split.
  - intros (x & Hx & E). apply N.eqb_eq in E. now subst.
  - intros H. exists c. split; [assumption | apply N.eqb_refl].
Qed.

(* --------------------------------------------------------------------- *)
(** ** Fuzzy matcher *)
(* --------------------------------------------------------------------- *)

Section FuzzyMatcher.

Variable title : str.

Let score (t : str) : nat := common_chars title t.

Lemma common_chars_cons c q t :
  common_chars (c :: q) t = (if char_in c t then 1 else 0) + common_chars q t.
Proof. unfold common_chars. simpl. now destruct (char_in c t). Qed.

Lemma common_chars_membership q t t' :
  (forall c, In c t <-> In c t') -> common_chars q t = common_chars q t'.
Proof.
  intros H. induction q as [|c q IH]; [reflexivity|].
  rewrite !common_chars_cons, IH. f_equal.
  destruct (char_in c t) eqn:E, (char_in c t') eqn:E'; try reflexivity.
  - apply char_in_In, H, char_in_In in E. congruence.
  - apply char_in_In, H, char_in_In in E'. congruence.
Qed.

(** The loop, started at index [i] with [(m, b)] as best so far: either
    nothing beats [m] and [b] stays, or the result is the first position
    holding the greatest score, which beats [m]. *)
Lemma closest_scan l : forall i m b,
  let r := snd (fold_left (closest_step title) (enumerate_from i l) (m, b)) in
  (r = b /\ forall k, k < length l -> score (nth k l []) <= m)
  \/ (exists k, k < length l /\ r = i + k /\ m < score (nth k l [])
        /\ (forall j, j < length l -> score (nth j l []) <= score (nth k l []))
        /\ (forall j, j < k -> score (nth j l []) < score (nth k l []))).
Proof.
  induction l as [|t l IH]; intros i m b; simpl.
  - left. split; [reflexivity | intros k Hk; lia].
  - fold (score t). destruct (Nat.ltb_spec m (score t)) as [Hlt | Hge].
    + destruct (IH (S i) (score t) i) as [[Hr Hall] | (k & Hk & Hr & Hm & Hmax & Hfirst)].
      * right. exists 0. simpl. repeat split; try lia.
        intros [|j] Hj; [lia | apply Hall; lia].
      * right. exists (S k). simpl. repeat split; try lia.
        -- intros [|j] Hj; [lia | apply Hmax; lia].
        -- intros [|j] Hj; [lia | apply Hfirst; lia].
    + destruct (IH (S i) m b) as [[Hr Hall] | (k & Hk & Hr & Hm & Hmax & Hfirst)].
      * left. split; [assumption|].
        intros [|j] Hj; [assumption | apply Hall; lia].
      * right. exists (S k). simpl. repeat split; try lia.
        -- intros [|j] Hj; [lia | apply Hmax; lia].
        -- intros [|j] Hj; [lia | apply Hfirst; lia].
Qed.

Lemma find_closest_title_nil : find_closest_title title [] = 0.
Proof. reflexivity. Qed.

Lemma find_closest_title_first_max (titles : list str) :
  let r := find_closest_title title titles in
  (r < length titles \/ titles = [])
  /\ (forall j, j < length titles -> score (nth j titles []) <= score (nth r titles []))
  /\ (forall j, j < r -> score (nth j titles []) < score (nth r titles [])).
Proof.
  unfold find_closest_title.
  destruct (closest_scan titles 0 0 0) as [[Hr Hall] | (k & Hk & Hr & Hm & Hmax & Hfirst)].
  - rewrite Hr. repeat split.
    + destruct titles; [now right | left; simpl; lia].
    + intros j Hj. specialize (Hall j Hj). lia.
    + intros j Hj. lia.
  - rewrite Hr. simpl. repeat split; [left | |]; assumption.
Qed.

End FuzzyMatcher.

(** C3.  The fuzzy matcher scores a candidate by counting, with repetition,
    the characters of the query that are members of the candidate (so the
    score depends on the candidate only through the set of its characters);
    it returns the lowest index whose score is the greatest, index 0 for an
    empty list, and index 0 on the example of the specification. *)
Theorem find_closest_title_spec (title : str) (titles : list str) :
  let score t := common_chars title t in
  let r := find_closest_title title titles in
  (forall c q t, common_chars (c :: q) t = (if char_in c t then 1 else 0) + common_chars q t)
  /\ (forall t, common_chars [] t = 0)
  /\ (forall c t, char_in c t = true <-> In c t)
  /\ (forall t t', (forall c, In c t <-> In c t') -> score t = score t')
  /\ (r < length titles \/ titles = [])
  /\ (forall j, j < length titles -> score (nth j titles []) <= score (nth r titles []))
  /\ (forall j, j < r -> score (nth j titles []) < score (nth r titles []))
  /\ find_closest_title title [] = 0
  /\ find_closest_title (u"abc") [u"xabcx"; u"ab"; u"none"] = 0.
Proof.
  cbv zeta.
  split; [intros; apply common_chars_cons|].
  split; [reflexivity|].
  split; [apply char_in_In|].
  split; [intros t t'; apply common_chars_membership|].
  pose proof (find_closest_title_first_max title titles) as (Hb & Hmax & Hfirst).
  repeat split; try assumption; reflexivity.
Qed.

(* --------------------------------------------------------------------- *)
(** ** Alias resolver *)
(* --------------------------------------------------------------------- *)

Lemma table_get_In d k v : table_get d k = Some v -> In v (map snd d).
Proof.
  induction d as [|[k' v'] d IH]; simpl; [discriminate|].
  destruct (str_eqb k k'); [intros [= ->]; now left | right; auto].
Qed.

Lemma table_mem_self d k v : table_get d k = Some v -> table_mem d k = true.
Proof. unfold table_mem. now intros ->. Qed.

(** Every alias points at a canonical name. *)
Lemma aliases_are_canonical :
  forallb (table_mem SEARCH_TYPES) (map snd SEARCH_TYPE_ALIASES) = true
  /\ forallb (table_mem SORT_TYPES) (map snd SORT_TYPE_ALIASES) = true.
Proof. split; vm_compute; reflexivity. Qed.

Lemma resolve_search_type_unfold x :
  resolve_search_type x =
  match table_get SEARCH_TYPE_ALIASES (strip (lower x)) with
  | Some canonical => canonical
  | None => if table_mem SEARCH_TYPES x then x else u"主题"
  end.
Proof. destruct x as [|c x]; [vm_compute; reflexivity | reflexivity]. Qed.

Lemma resolve_sort_type_unfold x :
  resolve_sort_type x =
  match table_get SORT_TYPE_ALIASES (strip (lower x)) with
  | Some canonical => canonical
  | None => if table_mem SORT_TYPES x then x else u"相关度"
  end.
Proof. destruct x as [|c x]; [vm_compute; reflexivity | reflexivity]. Qed.

(** C4, amended.  Both resolvers look the lower-cased, trimmed input up in
    the alias table; failing that, they look the input as given (neither
    trimmed nor case-folded) up in the canonical-name table and return it
    unchanged; otherwise they return the default.  They are total, and what
    they return is always a canonical name. *)
Theorem resolve_lookup_order (x : str) :
  resolve_search_type x =
    match table_get SEARCH_TYPE_ALIASES (strip (lower x)) with
    | Some canonical => canonical
    | None => if table_mem SEARCH_TYPES x then x else u"主题"
    end
  /\ resolve_sort_type x =
    match table_get SORT_TYPE_ALIASES (strip (lower x)) with
    | Some canonical => canonical
    | None => if table_mem SORT_TYPES x then x else u"相关度"
    end
  /\ table_mem SEARCH_TYPES (resolve_search_type x) = true
  /\ table_mem SORT_TYPES (resolve_sort_type x) = true
  /\ resolve_search_type [] = u"主题"
  /\ resolve_sort_type [] = u"相关度".
Proof.
  destruct aliases_are_canonical as [Hf Hs].
  split; [apply resolve_search_type_unfold|].
  split; [apply resolve_sort_type_unfold|].
  split; [|split; [|split; vm_compute; reflexivity]].
  - rewrite resolve_search_type_unfold.
    destruct (table_get SEARCH_TYPE_ALIASES (strip (lower x))) as [c|] eqn:E.
    + apply table_get_In in E.
      rewrite forallb_forall in Hf. now apply Hf.
    + destruct (table_mem SEARCH_TYPES x) eqn:E'; [assumption | vm_compute; reflexivity].
  - rewrite resolve_sort_type_unfold.
    destruct (table_get SORT_TYPE_ALIASES (strip (lower x))) as [c|] eqn:E.
    + apply table_get_In in E.
      rewrite forallb_forall in Hs. now apply Hs.
    + destruct (table_mem SORT_TYPES x) eqn:E'; [assumption | vm_compute; reflexivity].
Qed.

(** C4 as stated fails: a canonical name with a blank around it is not
    recognised, although its trimmed form is a key of the canonical-name
    table; the resolvers fall back to the default there. *)
Lemma resolve_not_trimming_canonical :
  resolve_search_type (u" 篇名") = u"主题"
  /\ resolve_search_type (u"篇名") = u"篇名"
  /\ resolve_field_spec (u" 篇名") = u"篇名"
  /\ resolve_sort_type (u"被引 ") = u"相关度"
  /\ resolve_sort_type (u"被引") = u"被引"
  /\ resolve_sort_spec (u"被引 ") = u"被引".
Proof. vm_compute. repeat split; reflexivity. Qed.

Lemma alias_tables_functional :
  forallb (fun kv => match table_get SEARCH_TYPE_ALIASES (fst kv) with
                     | Some v => str_eqb v (snd kv)
                     | None => false
                     end) SEARCH_TYPE_ALIASES = true
  /\ forallb (fun kv => match table_get SORT_TYPE_ALIASES (fst kv) with
                        | Some v => str_eqb v (snd kv)
                        | None => false
                        end) SORT_TYPE_ALIASES = true.
Proof. split; vm_compute; reflexivity. Qed.

Lemma table_get_of_In (d : table) k v :
  forallb (fun kv => match table_get d (fst kv) with
                     | Some v => str_eqb v (snd kv)
                     | None => false
                     end) d = true ->
  In (k, v) d -> table_get d k = Some v.
Proof.
  intros H Hin. rewrite forallb_forall in H. specialize (H (k, v) Hin). simpl in H.
  destruct (table_get d k) as [v'|]; [|discriminate].
  apply str_eqb_eq in H. now subst.
Qed.

(** X1.  Every entry of the alias tables resolves to its listed canonical
    name, whatever the letter case of the input and the blanks around it. *)
Theorem aliases_resolve_to_targets (x k v : str) :
  strip (lower x) = k ->
  (In (k, v) SEARCH_TYPE_ALIASES -> resolve_search_type x = v)
  /\ (In (k, v) SORT_TYPE_ALIASES -> resolve_sort_type x = v).
Proof.
  intros Hnorm. destruct alias_tables_functional as [Hf Hs]. split; intros Hin.
  - rewrite resolve_search_type_unfold, Hnorm.
    now rewrite (table_get_of_In SEARCH_TYPE_ALIASES k v Hf Hin).
  - rewrite resolve_sort_type_unfold, Hnorm.
    now rewrite (table_get_of_In SORT_TYPE_ALIASES k v Hs Hin).
Qed.

(** A run of X1: "  TITLE " is the alias [title]. *)
Lemma aliases_resolve_to_targets_witness :
  resolve_search_type (u"  TITLE ") = u"篇名".
Proof.
  apply (proj1 (aliases_resolve_to_targets (u"  TITLE ") (k := u"title") (u"篇名")
                  ltac:(vm_compute; reflexivity))).
  vm_compute. tauto.
Defined.

(* --------------------------------------------------------------------- *)
(** ** Session pool *)
(* --------------------------------------------------------------------- *)

Section SessionPool.

Context {D : Driver}.

Ltac run_pool :=
  cbv [close get_page with_lock _close_internal _create_browser _is_browser_alive
       bind ret raise log call fresh store read_pool try_except try_finally
       w_env w_next w_pool w_trace _browser _playwright _last_used].

Ltac answer c e :=
  let r := fresh "r" in
  let e' := fresh "env" in
  let E := fresh "Ecall" in
  destruct (respond c e) as [[r | r] e'] eqn:E.

(** What [close] does, whatever the state of the pool and however the
    engine answers. *)
Lemma close_run (w : World) :
  exists w1,
    close w = (Returned tt, w1)
    /\ _browser (w_pool w1) = None
    /\ _playwright (w_pool w1) = None
    /\ w_next w1 = w_next w
    /\ w_trace w1 =
         w_trace w ++ [EvAcquire]
         ++ match _browser (w_pool w) with
            | Some b => [EvCall (browser_close b); EvStore (set_browser None)]
            | None => []
            end
         ++ [EvRelease]
         ++ match _playwright (w_pool w) with
            | Some pw => [EvCall (playwright_stop pw); EvStore (set_playwright None)]
            | None => []
            end.
Proof.
  destruct w as [env nxt [pw br lu] tr]. run_pool.
  destruct br as [b|], pw as [p|]; simpl.
  - answer (browser_close b) env; answer (playwright_stop p) env0;
      eexists; (split; [reflexivity|]); simpl;
      repeat split; rewrite <- ?app_assoc; reflexivity.
  - answer (browser_close b) env;
      eexists; (split; [reflexivity|]); simpl;
      repeat split; rewrite <- ?app_assoc; reflexivity.
  - answer (playwright_stop p) env;
      eexists; (split; [reflexivity|]); simpl;
      repeat split; rewrite <- ?app_assoc; reflexivity.
  - eexists; (split; [reflexivity|]); simpl;
      repeat split; rewrite <- ?app_assoc; reflexivity.
Qed.

(** A pool that holds nothing is closed without touching the engine. *)
Lemma close_again (w : World) :
  _browser (w_pool w) = None -> _playwright (w_pool w) = None ->
  exists w1,
    close w = (Returned tt, w1)
    /\ w_trace w1 = w_trace w ++ [EvAcquire; EvRelease]
    /\ w_env w1 = w_env w /\ w_pool w1 = w_pool w /\ w_next w1 = w_next w.
Proof.
  destruct w as [env nxt [pw br lu] tr]. simpl. intros -> ->. run_pool.
  eexists. split; [reflexivity|]. simpl.
  rewrite <- app_assoc. repeat split.
Qed.


Lemma start_world_wf e : pool_wf (start_world e).
Proof. split; simpl; discriminate. Qed.

Ltac answers :=
  repeat (match goal with
          | |- context [respond ?c ?e] =>
              let E := fresh "E" in
              destruct (respond c e) as [[?|?] ?] eqn:E; simpl
          | |- context [negb ?b] => is_var b; destruct b; simpl
          | |- context [if ?b then _ else _] => is_var b; destruct b; simpl
          end).

(** The pool only ever holds handles of objects that exist: this holds at
    start and is kept by both entry points of the pool. *)
Lemma get_page_preserves_wf (w : World) r w' :
  pool_wf w -> get_page w = (r, w') -> pool_wf w' /\ w_next w <= w_next w'.
Proof.
  destruct w as [env nxt [pw br lu] tr]. unfold pool_wf. simpl.
  intros [Hb Hp]. run_pool.
  destruct (respond time_time env) as [[e | tnow] env1]; simpl.
  - intros [= <- <-]. simpl. repeat split; auto.
  - destruct br as [b|]; [specialize (Hb b eq_refl)|];
      (destruct pw as [p|]; [specialize (Hp p eq_refl)|]);
      simpl;
      try (destruct (idle_expired tnow _); simpl);
      answers;
      intros [= <- <-]; simpl;
      repeat split; try lia; intros h [= <-]; lia.
Qed.

Lemma close_preserves_wf (w : World) r w' :
  close w = (r, w') -> pool_wf w' /\ w_next w' = w_next w.
Proof.
  intros Hrun. destruct (close_run w) as (w1 & Hrun1 & Hbr & Hpw & Hnext & _).
  rewrite Hrun1 in Hrun. injection Hrun as <- <-.
  split; [|assumption]. split; intros h H; congruence.
Qed.


(** C9.  [close] returns normally from every state of the pool and for
    every behaviour of the engine (a browser or engine that fails to close is
    ignored): it closes the session first and stops the engine second, leaves
    the pool empty, and a second [close] right after returns normally too,
    without any call to the engine. *)
Theorem close_idempotent_never_raises (w : World) :
  exists w1,
    close w = (Returned tt, w1)
    /\ _browser (w_pool w1) = None
    /\ _playwright (w_pool w1) = None
    /\ w_trace w1 =
         w_trace w ++ [EvAcquire]
         ++ match _browser (w_pool w) with
            | Some b => [EvCall (browser_close b); EvStore (set_browser None)]
            | None => []
            end
         ++ [EvRelease]
         ++ match _playwright (w_pool w) with
            | Some pw => [EvCall (playwright_stop pw); EvStore (set_playwright None)]
            | None => []
            end
    /\ exists w2,
         close w1 = (Returned tt, w2)
         /\ w_trace w2 = w_trace w1 ++ [EvAcquire; EvRelease]
         /\ w_env w2 = w_env w1
         /\ w_pool w2 = w_pool w1.
Proof.
  destruct (close_run w) as (w1 & Hrun & Hb & Hp & _ & Htr).
  exists w1. repeat (split; [assumption|]).
  destruct (close_again w1 Hb Hp) as (w2 & Hrun2 & Htr2 & Henv & Hpool & _).
  exists w2. repeat split; assumption.
Qed.

(** X4.  The pool only ever holds handles of objects that exist: this
    holds at server start and is kept by [get_page] and by [close]. *)
Theorem pool_handles_stay_valid :
  (forall e, pool_wf (start_world e))
  /\ (forall w r w', pool_wf w -> get_page w = (r, w') -> pool_wf w')
  /\ (forall w r w', close w = (r, w') -> pool_wf w').
Proof.
  split; [apply start_world_wf|]. split.
  - intros w r w' Hwf Hrun. now destruct (@get_page_preserves_wf w r w' Hwf Hrun).
  - intros w r w' Hrun. now destruct (@close_preserves_wf w r w' Hrun).
Qed.

End SessionPool.



(* --------------------------------------------------------------------- *)
(** ** Extraction and pagination *)
(* --------------------------------------------------------------------- *)

Section Collector.

Context {D : Driver}.

(** A handler that only returns makes the whole [try] return. *)
Lemma try_except_total {A} (m : M A) (h : exn -> A) (w : World) :
  exists a w',
    try_except m (fun e => ret (h e)) w = (Returned a, w')
    /\ (m w = (Returned a, w') \/ exists e, m w = (Raised e, w') /\ a = h e).
Proof.
  unfold try_except, ret. destruct (m w) as [[a | e] w'] eqn:E.
  - exists a, w'. split; [reflexivity | now left].
  - exists (h e), w'. split; [reflexivity | right; now exists e].
Qed.

Lemma field_or_returns paper k m default w :
  exists v w', field_or paper k m default w = (Returned (dict_set paper k v), w').
Proof.
  unfold field_or, try_except, bind, ret.
  destruct (m w) as [[v | e] w'].
  - now exists v, w'.
  - now exists default, w'.
Qed.

Lemma title_block_returns row w :
  exists t v w',
    try_except
      (bind (call (query_selector (OnElement row) (u"a.fz14"))) (fun title_el =>
       bind (text_or title_el []) (fun title =>
       bind (match title_el with
             | Some e =>
                 bind (call (get_attribute e (u"href"))) (fun href =>
                 ret (match href with Some h => VStr h | None => VNone end))
             | None => ret (VStr [])
             end) (fun url =>
       ret (dict_set (dict_set [] "title" (VStr title)) "url" url)))))
      (fun _ => ret (dict_set (dict_set [] "title" (VStr [])) "url" (VStr []))) w
    = (Returned [("title", VStr t); ("url", v)]%string, w').
Proof.
  destruct w as [env nxt pool tr].
  cbv [try_except bind call ret text_or w_env w_next w_pool w_trace].
  destruct (respond (query_selector (OnElement row) (u"a.fz14")) env)
    as [[e | [el|]] env1]; simpl.
  - now eexists _, _, _.
  - destruct (respond (inner_text el) env1) as [[e | t] env2]; simpl.
    + now eexists _, _, _.
    + destruct (respond (get_attribute el (u"href")) env2) as [[e | h] env3]; simpl;
        now eexists _, _, _.
  - now eexists _, _, _.
Qed.

(** The extraction of a row never fails, and the record has every key. *)
Lemma _parse_paper_row_returns row w :
  exists paper w' t,
    _parse_paper_row row w = (Returned paper, w')
    /\ map fst paper = ROW_KEYS
    /\ dict_get paper "title" = Some (VStr t).
Proof.
  unfold _parse_paper_row. cbv zeta.
  unfold bind at 1.
  destruct (title_block_returns row w) as (t & v & w1 & ->).
  unfold bind at 1.
  match goal with |- context [field_or ?p ?k ?m ?d w1] =>
    destruct (field_or_returns p k m d w1) as (v1 & w2 & ->) end.
  unfold bind at 1.
  match goal with |- context [field_or ?p ?k ?m ?d w2] =>
    destruct (field_or_returns p k m d w2) as (v2 & w3 & ->) end.
  unfold bind at 1.
  match goal with |- context [field_or ?p ?k ?m ?d w3] =>
    destruct (field_or_returns p k m d w3) as (v3 & w4 & ->) end.
  unfold bind at 1.
  match goal with |- context [field_or ?p ?k ?m ?d w4] =>
    destruct (field_or_returns p k m d w4) as (v4 & w5 & ->) end.
  unfold bind at 1.
  match goal with |- context [field_or ?p ?k ?m ?d w5] =>
    destruct (field_or_returns p k m d w5) as (v5 & w6 & ->) end.
  eexists _, _, t. split; [reflexivity|]. split; reflexivity.
Qed.

Lemma parse_all_cons row rest w :
  exists paper w1,
    _parse_paper_row row w = (Returned paper, w1)
    /\ parse_all (row :: rest) w =
         (paper :: fst (parse_all rest w1), snd (parse_all rest w1)).
Proof.
  destruct (_parse_paper_row_returns row w) as (paper & w1 & t & Hrun & _).
  exists paper, w1. split; [assumption|].
  simpl. rewrite Hrun. now destruct (parse_all rest w1).
Qed.

(** The row loop: parsed rows with a non-empty title are appended, tagged,
    in row order; the others are left out. *)
Lemma append_rows_spec rows : forall page_num all_papers w,
  append_rows rows page_num all_papers w =
    (Returned (all_papers
               ++ map (tag_page page_num) (filter has_title (fst (parse_all rows w)))),
     snd (parse_all rows w)).
Proof.
  induction rows as [|row rest IH]; intros page_num all_papers w.
  - simpl. unfold ret. now rewrite app_nil_r.
  - destruct (parse_all_cons row rest w) as (paper & w1 & Hrun & ->).
    destruct (_parse_paper_row_returns row w) as (paper' & w1' & t & Hrun' & _ & Htitle).
    rewrite Hrun in Hrun'. injection Hrun' as <- <-.
    simpl. unfold bind at 1. rewrite Hrun.
    unfold bind at 1, dict_item. rewrite Htitle. unfold ret at 1.
    unfold has_title at 1, dict_truthy. rewrite Htitle.
    destruct (truthy (VStr t)); rewrite IH; [|reflexivity].
    simpl. now rewrite <- app_assoc.
Qed.

Lemma parse_all_length rows : forall w, length (fst (parse_all rows w)) = length rows.
Proof.
  induction rows as [|row rest IH]; intros w; [reflexivity|].
  destruct (parse_all_cons row rest w) as (paper & w1 & _ & ->).
  simpl. now rewrite IH.
Qed.

Lemma parse_all_keys rows : forall w paper,
  In paper (fst (parse_all rows w)) -> map fst paper = ROW_KEYS.
Proof.
  induction rows as [|row rest IH]; intros w paper; [intros []|].
  destruct (parse_all_cons row rest w) as (paper' & w1 & Hrun & ->).
  destruct (_parse_paper_row_returns row w) as (p2 & w2 & t & Hrun2 & Hkeys & _).
  rewrite Hrun in Hrun2. injection Hrun2 as <- <-.
  simpl. intros [<- | Hin]; [assumption | eauto].
Qed.

Lemma dict_get_set d k v : dict_get (dict_set d k v) k = Some v.
Proof.
  induction d as [|[k' v'] d IH]; simpl.
  - now rewrite String.eqb_refl.
  - destruct (String.eqb k k') eqn:E; simpl; rewrite E; [reflexivity | assumption].
Qed.

Lemma collect_page_rows page page_num all_papers w rows w1 :
  visible_rows page w = (Returned rows, w1) ->
  collect_page page page_num all_papers w =
    (Returned (all_papers
               ++ map (tag_page page_num) (filter has_title (fst (parse_all rows w1)))),
     snd (parse_all rows w1)).
Proof.
  intros H. unfold collect_page, try_except, bind. rewrite H.
  now rewrite append_rows_spec.
Qed.

Lemma collect_page_failed page page_num all_papers w e w1 :
  visible_rows page w = (Raised e, w1) ->
  collect_page page page_num all_papers w = (Returned all_papers, w1).
Proof. intros H. unfold collect_page, try_except, bind. now rewrite H. Qed.

Lemma collect_page_returns page page_num all_papers w :
  exists papers w', collect_page page page_num all_papers w = (Returned papers, w').
Proof.
  destruct (visible_rows page w) as [[rows | e] w1] eqn:E.
  - rewrite (@collect_page_rows page page_num all_papers w rows w1 E). now eexists _, _.
  - rewrite (@collect_page_failed page page_num all_papers w e w1 E). now eexists _, _.
Qed.

Lemma goto_next_works page w :
  exists w', goto_next page w = (Returned (next_works page (w_env w)), w').
Proof.
  destruct w as [env nxt pool tr].
  cbv [goto_next next_works random_delay try_except bind call ret
       w_env w_next w_pool w_trace].
  destruct (respond (query_selector (OnPage page) (u"#PageNext")) env)
    as [[e | [btn|]] env1]; simpl; try (now eexists).
  destruct (respond (is_enabled btn) env1) as [[e | [|]] env2]; simpl;
    try (now eexists).
  destruct (respond (element_click btn) env2) as [[e | []] env3]; simpl;
    try (now eexists).
  destruct (respond (asyncio_sleep 1.5 2.5) env3) as [[e | []] env4]; simpl;
    now eexists.
Qed.

Lemma py_range_cons lo hi :
  (lo < hi)%Z -> py_range lo hi = lo :: py_range (lo + 1) hi.
Proof.
  intros H. unfold py_range.
  replace (Z.to_nat (hi - lo)) with (S (Z.to_nat (hi - (lo + 1)))) by lia.
  simpl. f_equal; [lia|].
  rewrite <- seq_shift, map_map. apply map_ext. intros i. lia.
Qed.

Lemma collect_loop_returns page pages page_nums : forall all_papers w,
  exists papers w', collect_loop page pages page_nums all_papers w = (Returned papers, w').
Proof.
  induction page_nums as [|n rest IH]; intros all_papers w; simpl.
  - now eexists _, _.
  - unfold bind at 1.
    destruct (collect_page_returns page n all_papers w) as (papers & w1 & ->).
    destruct (n <? pages)%Z; [|apply IH].
    unfold bind. destruct (goto_next_works page w1) as (w2 & ->).
    destruct (next_works page (w_env w1)); [apply IH | now eexists _, _].
Qed.

(** The loop stops at the first page after which the next control does not
    work, with the records collected up to there. *)
Lemma collect_loop_stops page pages k : forall n all_papers w papers wk w',
  first_pages page k n all_papers w = Some (papers, wk) ->
  goto_next page wk = (Returned false, w') ->
  (n + Z.of_nat k - 1 < pages)%Z ->
  collect_loop page pages (py_range n (pages + 1)) all_papers w = (Returned papers, w').
Proof.
  induction k as [|k IH]; intros n all_papers w papers wk w' Hfirst Hstop Hlt;
    [discriminate|].
  rewrite py_range_cons by lia. simpl in *.
  unfold bind at 1.
  destruct (collect_page page n all_papers w) as [[papers1 | e] w1]; [|discriminate].
  replace (n <? pages)%Z with true by (symmetry; apply Z.ltb_lt; lia).
  unfold bind at 1.
  destruct k as [|k'].
  - injection Hfirst as <- <-. now rewrite Hstop.
  - destruct (goto_next page w1) as [[[|] | e] w2]; try discriminate.
    apply IH with (wk := wk); [assumption | assumption | lia].
Qed.

(** With the next control working throughout, all the requested pages are
    collected. *)
Lemma collect_loop_all page pages k : forall n all_papers w papers wk,
  first_pages page k n all_papers w = Some (papers, wk) ->
  (n + Z.of_nat k - 1 = pages)%Z ->
  collect_loop page pages (py_range n (pages + 1)) all_papers w = (Returned papers, wk).
Proof.
  induction k as [|k IH]; intros n all_papers w papers wk Hfirst Hlt; [discriminate|].
  rewrite py_range_cons by lia. simpl in *.
  unfold bind at 1.
  destruct (collect_page page n all_papers w) as [[papers1 | e] w1]; [|discriminate].
  destruct k as [|k'].
  - injection Hfirst as <- <-.
    replace (n <? pages)%Z with false by (symmetry; apply Z.ltb_ge; lia).
    replace (py_range (n + 1) (pages + 1)) with (@nil Z); [reflexivity|].
    unfold py_range. now replace (Z.to_nat (pages + 1 - (n + 1))) with 0 by lia.
  - replace (n <? pages)%Z with true by (symmetry; apply Z.ltb_lt; lia).
    unfold bind at 1.
    destruct (goto_next page w1) as [[[|] | e] w2]; try discriminate.
    apply IH; [assumption | lia].
Qed.

(** C2.  [_collect_results] never raises.  Its advancing step answers
    "go on" exactly when the next control is present and enabled and
    clicking and pacing raise nothing.  If, with [k] smaller than the
    requested page count, advancing worked after each of the first [k - 1]
    pages and does not work after page [k], the result is exactly the
    records of the first [k] pages, and nothing is done after the failed
    advance.  A page whose rows cannot be obtained leaves the records as
    they were, and the loop goes on to the next page. *)
Theorem collect_stops_early_without_error (page : handle) (pages : Z) :
  (forall w, exists papers w', _collect_results page pages w = (Returned papers, w'))
  /\ (forall w, exists w', goto_next page w = (Returned (next_works page (w_env w)), w'))
  /\ (forall k w papers wk,
        (Z.of_nat k < pages)%Z ->
        first_pages page k 1 [] w = Some (papers, wk) ->
        next_works page (w_env wk) = false ->
        exists w',
          goto_next page wk = (Returned false, w')
          /\ _collect_results page pages w = (Returned papers, w'))
  /\ (forall page_num all_papers w e w1,
        visible_rows page w = (Raised e, w1) ->
        collect_page page page_num all_papers w = (Returned all_papers, w1))
  /\ (forall page_num rest all_papers w e w1 w2,
        visible_rows page w = (Raised e, w1) ->
        (page_num < pages)%Z ->
        goto_next page w1 = (Returned true, w2) ->
        collect_loop page pages (page_num :: rest) all_papers w =
        collect_loop page pages rest all_papers w2).
Proof.
  split; [intros w; apply collect_loop_returns|].
  split; [apply goto_next_works|].
  split; [|split].
  - intros k w papers wk Hk Hfirst Hstop.
    destruct (goto_next_works page wk) as (w' & Hnext). rewrite Hstop in Hnext.
    exists w'. split; [assumption|].
    unfold _collect_results.
    apply collect_loop_stops with (k := k) (wk := wk); [assumption | assumption | lia].
  - intros page_num all_papers w e w1. apply collect_page_failed.
  - intros page_num rest all_papers w e w1 w2 Hrows Hlt Hnext. simpl.
    unfold bind at 1.
    rewrite (@collect_page_failed page page_num all_papers w e w1 Hrows).
    replace (page_num <? pages)%Z with true by (symmetry; now apply Z.ltb_lt).
    unfold bind at 1. now rewrite Hnext.
Qed.

(** C7, amended.  For a page whose rows are obtained, every row is
    extracted into a record carrying all seven keys (absent fields take their
    defaults), and the records whose title is not empty are appended in row
    order, each tagged with the page number; a record whose title is empty
    is left out. *)
Theorem collect_page_keeps_titled_rows (page : handle) (page_num : Z)
    (all_papers : list dict) (w : World) (rows : list handle) (w1 : World) :
  visible_rows page w = (Returned rows, w1) ->
  let parsed := fst (parse_all rows w1) in
  collect_page page page_num all_papers w =
    (Returned (all_papers ++ map (tag_page page_num) (filter has_title parsed)),
     snd (parse_all rows w1))
  /\ length parsed = length rows
  /\ (forall paper, In paper parsed -> map fst paper = ROW_KEYS)
  /\ (forall paper, In paper (map (tag_page page_num) (filter has_title parsed)) ->
        dict_get paper "page" = Some (VInt page_num)
        /\ dict_truthy paper "title" = true).
Proof.
  intros Hrows parsed. split; [now apply collect_page_rows|].
  split; [apply parse_all_length|].
  split; [apply parse_all_keys|].
  intros paper Hin. apply in_map_iff in Hin as (p0 & <- & Hin).
  apply filter_In in Hin as [Hin Htitle].
  split; [apply dict_get_set|].
  unfold tag_page, has_title, dict_truthy in *.
  pose proof (parse_all_keys rows w1 p0 Hin) as Hkeys.
  destruct p0 as [|[k0 v0] p0]; [discriminate|].
  injection Hkeys as -> _. simpl in *. exact Htitle.
Qed.

(** X2.  The extraction of a result row never fails, whatever the row
    lacks and whichever read raises: it yields a record with all seven keys. *)
Theorem parse_paper_row_tolerant (row : handle) (w : World) :
  exists paper w',
    _parse_paper_row row w = (Returned paper, w') /\ map fst paper = ROW_KEYS.
Proof.
  destruct (_parse_paper_row_returns row w) as (paper & w' & t & Hrun & Hkeys & _).
  now exists paper, w'.
Qed.

(** X5.  When the next control works after each page but the last
    requested one, the collector returns the records of all the requested
    pages and does not touch the next control after the last page. *)
Theorem collect_all_pages_when_next_works (page : handle) (k : nat) (w : World)
    (papers : list dict) (wk : World) :
  first_pages page k 1 [] w = Some (papers, wk) ->
  _collect_results page (Z.of_nat k) w = (Returned papers, wk).
Proof.
  intros Hfirst. unfold _collect_results.
  apply collect_loop_all with (k := k); [assumption | lia].
Qed.

End Collector.

(** A run of C2 on the mock portal: three pages are asked for, the next
    control is disabled on the second page, and the three titled rows of the
    first two pages come back. *)
Lemma collect_stops_early_witness :
  exists papers w',
    @_collect_results (mock_driver three_pages) 0 3 (mock_start three_pages) = (Returned papers, w')
    /\ length papers = 3
    /\ map (fun p => dict_get p "page") papers
       = [Some (VInt 1); Some (VInt 1); Some (VInt 2)].
Proof.
  destruct (@collect_stops_early_without_error (mock_driver three_pages) 0 3)
    as (_ & _ & Hstop & _).
  destruct (@first_pages (mock_driver three_pages) 0 2 1 [] (mock_start three_pages))
    as [[papers wk]|] eqn:Hfirst; [|vm_compute in Hfirst; discriminate].
  assert (Hk : (Z.of_nat 2 < 3)%Z) by lia.
  assert (Hnw : @next_works (mock_driver three_pages) 0 (w_env wk) = false).
  { vm_compute in Hfirst. injection Hfirst as <- <-. vm_compute. reflexivity. }
  destruct (Hstop 2 (mock_start three_pages) papers wk Hk Hfirst Hnw) as (w' & _ & Hrun).
  exists papers, w'. split; [exact Hrun|].
  vm_compute in Hfirst. injection Hfirst as <- <-. split; reflexivity.
Defined.

(** C7 as stated fails: the only visible row has no title link; it is
    extracted (its title is the empty default) and yet the collector
    returns no record. *)
Lemma untitled_row_is_dropped :
  fst (@visible_rows (mock_driver untitled) 0 (mock_start untitled)) = Returned [1]
  /\ map (fun p => dict_get p "title")
       (fst (@parse_all (mock_driver untitled) [1] (mock_start untitled)))
     = [Some (VStr [])]
  /\ fst (@_collect_results (mock_driver untitled) 0 1 (mock_start untitled)) = Returned [].
Proof. vm_compute. repeat split; reflexivity. Qed.

(** A run of C7 on the mock portal: the two rows of the first page are
    recorded, tagged with page 1. *)
Lemma collect_page_keeps_titled_rows_witness :
  exists papers w',
    @collect_page (mock_driver three_pages) 0 1 [] (mock_start three_pages) = (Returned papers, w')
    /\ map (fun p => dict_get p "page") papers = [Some (VInt 1); Some (VInt 1)].
Proof.
  destruct (@visible_rows (mock_driver three_pages) 0 (mock_start three_pages)) as [r w1] eqn:Hrows.
  vm_compute in Hrows. injection Hrows as <- <-.
  match goal with
  | |- context [@collect_page ?d ?p ?n ?acc ?w] =>
      destruct (@collect_page_keeps_titled_rows d p n acc w [1; 2]
                  (@mkWorld d 0 0 BrowserPool_init
                     [EvCall (query_selector_all (OnPage 0) ROWS_SELECTOR)]))
        as (Hrun & _)
  end.
  - vm_compute. reflexivity.
  - eexists _, _. split; [exact Hrun|]. vm_compute. reflexivity.
Defined.

(* --------------------------------------------------------------------- *)
(** ** Tools *)
(* --------------------------------------------------------------------- *)

Section Tools.

Context {D : Driver}.

Lemma bind_returned {A B} (m : M A) (k : A -> M B) w b w' :
  bind m k w = (Returned b, w') ->
  exists a w1, m w = (Returned a, w1) /\ k a w1 = (Returned b, w').
Proof.
  unfold bind. destruct (m w) as [[a | e] w1]; [|discriminate].
  intros H. now exists a, w1.
Qed.

(** The titles and the links gathered from a page go in pairs. *)
Lemma gather_links_parallel links : forall titles urls w,
  length urls = length titles ->
  exists titles' urls' w',
    gather_links links titles urls w = (Returned (titles', urls'), w')
    /\ length urls' = length titles'.
Proof.
  induction links as [|link rest IH]; intros titles urls w Hlen.
  - simpl. now eexists _, _, _.
  - destruct w as [env nxt pool tr]. simpl.
    cbv [bind try_except call ret w_env w_next w_pool w_trace].
    destruct (respond (inner_text link) env) as [[e | t] env1]; simpl;
      [now eexists _, _, _|].
    destruct (respond (get_attribute link (u"href")) env1) as [[e | h] env2]; simpl;
      [now eexists _, _, _|].
    destruct (falsy (strip t)); simpl; apply IH; [assumption|].
    rewrite !length_app. simpl. lia.
Qed.

Lemma find_candidates_parallel p query w found w' :
  find_candidates p query w = (Returned found, w') ->
  length (snd found) = length (fst found).
Proof.
  unfold find_candidates. intros H.
  repeat (apply bind_returned in H as (? & ? & _ & H)).
  unfold try_except in H.
  match type of H with
  | (let (_, _) := ?m ?w in _) = _ => destruct (m w) as [[[ts us] | e] w2] eqn:E
  end.
  - injection H as <- <-.
    repeat (apply bind_returned in E as (? & ? & _ & E)).
    match type of E with
    | gather_links ?l _ _ ?w0 = _ =>
        destruct (@gather_links_parallel l [] [] w0 eq_refl) as (ts' & us' & w3 & Hg & Hlen)
    end.
    rewrite Hg in E. now injection E as <- <- <-.
  - unfold ret in H. now injection H as <- <-.
Qed.

Lemma find_closest_title_lt title titles :
  titles <> [] -> find_closest_title title titles < length titles.
Proof.
  intros Hne. destruct (find_closest_title_first_max title titles) as ([H | H] & _).
  - exact H.
  - contradiction.
Qed.

Lemma list_item_in_bounds {A} (l : list A) i (w : World) :
  i < length l -> exists x, nth_error l i = Some x /\ list_item l i w = (Returned x, w).
Proof.
  intros H. unfold list_item.
  destruct (nth_error l i) as [x|] eqn:E.
  - now exists x.
  - apply nth_error_None in E. lia.
Qed.

Lemma match_result_returns query titles urls (w : World) :
  length urls = length titles ->
  exists payload, match_result query titles urls w = (Returned payload, w).
Proof.
  intros Hlen. destruct titles as [|t titles]; [now eexists|].
  unfold match_result.
  assert (Hidx : find_closest_title query (t :: titles) < length (t :: titles))
    by (apply find_closest_title_lt; discriminate).
  destruct (list_item_in_bounds (t :: titles) w Hidx) as (x & _ & Hx).
  rewrite <- Hlen in Hidx.
  destruct (list_item_in_bounds urls w Hidx) as (y & _ & Hy).
  unfold bind. rewrite Hx, Hy. now eexists.
Qed.

(** C10.  On a non-empty list [find_closest_title] returns a position of
    the list, so the titles and the links, which have the same length, both
    have an item there; the lists [find_best_match] gathers always have the
    same length, and building its payload from them never raises. *)
Theorem find_closest_title_in_bounds (title : str) (titles urls : list str) :
  titles <> [] ->
  length urls = length titles ->
  find_closest_title title titles < length titles
  /\ (exists t u,
        nth_error titles (find_closest_title title titles) = Some t
        /\ nth_error urls (find_closest_title title titles) = Some u)
  /\ (forall p w found w',
        find_candidates p title w = (Returned found, w') ->
        length (snd found) = length (fst found)
        /\ exists payload,
             match_result title (fst found) (snd found) w' = (Returned payload, w')).
Proof.
  intros Hne Hlen.
  pose proof (find_closest_title_lt title Hne) as Hidx.
  split; [assumption|]. split.
  - destruct (nth_error titles (find_closest_title title titles)) as [t|] eqn:Et;
      [|apply nth_error_None in Et; lia].
    destruct (nth_error urls (find_closest_title title titles)) as [x|] eqn:Eu;
      [|apply nth_error_None in Eu; lia].
    now exists t, x.
  - intros p w found w' Hfound.
    pose proof (find_candidates_parallel _ _ _ Hfound) as Hpar.
    split; [assumption | now apply match_result_returns].
Qed.

(** C6, amended.  For every URL that is empty or does not contain "cnki"
    (in any letter case), [get_paper_detail] returns the structured error
    and leaves the world as it was: no notification, no lease, no
    navigation, the pool untouched. *)
Theorem get_paper_detail_rejects_non_cnki (url : str) (w : World) :
  url = [] \/ contains (u"cnki") (lower url) = false ->
  get_paper_detail url w = (Returned not_cnki_error, w)
  /\ dict_get not_cnki_error "isError" = Some (VBool true).
Proof.
  intros H. split; [|reflexivity].
  unfold get_paper_detail.
  replace (is_cnki_link url) with false; [reflexivity|].
  unfold is_cnki_link. destruct H as [-> | ->]; [reflexivity|].
  now rewrite andb_false_r.
Qed.

(** The shape the three tools share from the acquisition of the page on:
    [post] stands for the closing notifications, which hand the payload
    back. *)
Lemma leased_op_contract (w0 : World) (body : handle -> M dict)
    (on_error : exn -> dict) (post : dict -> M dict) r w' :
  (forall a w, exists w1 later,
      post a w = (Returned a, w1) /\ w_trace w1 = w_trace w ++ later) ->
  bind get_page
    (fun page =>
       bind (try_finally
               (try_except (body (page_id page)) (fun e => ret (on_error e)))
               (call (page_close (page_id page))))
            post) w0 = (r, w') ->
  lease_contract w0 body on_error r w'.
Proof.
  intros Hpost Hrun. unfold bind at 1 in Hrun. split.
  - intros e w1 Hget. rewrite Hget in Hrun. now injection Hrun as <- <-.
  - intros page w1 Hget. rewrite Hget in Hrun.
    destruct (try_except_total (body (page_id page)) on_error w1)
      as (payload & w2 & Htry & Hor).
    exists payload, w2.
    split; [assumption|]. split; [assumption|].
    unfold bind, try_finally in Hrun. rewrite Htry in Hrun.
    unfold call in Hrun.
    destruct (respond (page_close (page_id page)) (w_env w2)) as [[e | []] env3];
      simpl in *.
    + injection Hrun as <- <-. simpl.
      split; [now exists []|]. split; [discriminate | now intros e' env' [= <- _]].
    + destruct (Hpost payload
                  {| w_env := env3; w_next := w_next w2; w_pool := w_pool w2;
                     w_trace := w_trace w2 ++ [EvCall (page_close (page_id page))] |})
        as (w3 & later & Hp & Htr).
      rewrite Hp in Hrun. injection Hrun as <- <-.
      split; [|split; [reflexivity | discriminate]].
      exists later. rewrite Htr. simpl. now rewrite <- app_assoc.
Qed.

Lemma search_cnki_contract query search_type journal pages sort w r w' :
  search_cnki query search_type journal pages sort w = (r, w') ->
  lease_contract (opened (search_opening query journal) w)
    (fun p => search_body p query search_type journal pages sort)
    search_error r w'.
Proof.
  intros Hrun. eapply leased_op_contract; [|exact Hrun].
  intros a w0. cbv [bind notify log ret].
  destruct (dict_truthy a "isError"); eexists _, _; split; try reflexivity;
    simpl; rewrite <- app_assoc; reflexivity.
Qed.

Lemma get_paper_detail_contract url w r w' :
  is_cnki_link url = true ->
  get_paper_detail url w = (r, w') ->
  lease_contract (opened (detail_opening url) w)
    (fun p => _get_paper_detail p url) (detail_error url) r w'.
Proof.
  intros Hlink Hrun.
  unfold get_paper_detail in Hrun. rewrite Hlink in Hrun. simpl in Hrun.
  eapply leased_op_contract; [|exact Hrun].
  intros a w0. cbv [bind notify log ret].
  eexists _, _; split; reflexivity.
Qed.

Lemma find_best_match_contract query w r w' :
  find_best_match query w = (r, w') ->
  lease_contract (opened (match_opening query) w)
    (fun p => best_match_body p query) match_error r w'.
Proof.
  intros Hrun. eapply leased_op_contract; [|exact Hrun].
  intros a w0. cbv [bind notify log ret].
  eexists _, _; split; reflexivity.
Qed.

(** C5, amended.  Each tool, once its page is leased, turns every fault
    raised while it drives the page into its structured error payload
    ([isError] true), closes the page next on every path, and returns the
    payload of the [try] block or the error payload, provided closing the
    page raised nothing.  A fault raised while the page is being acquired, or
    by closing the page, goes to the caller. *)
Theorem tools_contain_faults_after_lease :
  (forall query search_type journal pages sort w r w',
      search_cnki query search_type journal pages sort w = (r, w') ->
      lease_contract (opened (search_opening query journal) w)
        (fun p => search_body p query search_type journal pages sort)
        search_error r w')
  /\ (forall url w r w',
        is_cnki_link url = true ->
        get_paper_detail url w = (r, w') ->
        lease_contract (opened (detail_opening url) w)
          (fun p => _get_paper_detail p url) (detail_error url) r w')
  /\ (forall query w r w',
        find_best_match query w = (r, w') ->
        lease_contract (opened (match_opening query) w)
          (fun p => best_match_body p query) match_error r w')
  /\ (forall e url,
        dict_get (search_error e) "isError" = Some (VBool true)
        /\ dict_get (detail_error url e) "isError" = Some (VBool true)
        /\ dict_get (match_error e) "isError" = Some (VBool true)).
Proof.
  split; [|split; [|split]].
  - intros *. apply search_cnki_contract.
  - intros *. apply get_paper_detail_contract.
  - intros *. apply find_best_match_contract.
  - intros e url. repeat split.
Qed.

(** C8, amended.  When the page is leased, the search yields no candidate
    title and the page closes, [find_best_match] returns the payload with
    the query, [best_match] none and the message "no result found": it is
    no error payload, and it has no candidate count. *)
Theorem find_best_match_no_candidates (query : str) (w : World) (page : Page)
    (w1 : World) (urls : list str) (w2 : World) (env3 : Env) :
  get_page (opened (match_opening query) w) = (Returned page, w1) ->
  find_candidates (page_id page) query w1 = (Returned ([], urls), w2) ->
  respond (page_close (page_id page)) (w_env w2) = (inr tt, env3) ->
  (exists w', find_best_match query w = (Returned (no_match query), w'))
  /\ map fst (no_match query) = ["query"; "best_match"; "message"]%string
  /\ dict_get (no_match query) "best_match" = Some VNone
  /\ dict_get (no_match query) "message" = Some (VStr (u"未找到结果"))
  /\ dict_get (no_match query) "isError" = None
  /\ dict_get (no_match query) "total_results" = None
  /\ dict_get (no_match query) "total_candidates" = None.
Proof.
  intros Hget Hcand Hclose.
  split; [|repeat split].
  destruct (find_best_match query w) as [r w'] eqn:Hrun.
  apply find_best_match_contract in Hrun. destruct Hrun as [_ Hrun].
  destruct (Hrun page w1 Hget) as (payload & w2' & Htry & _ & _ & Hout & _).
  unfold try_except, best_match_body, bind in Htry. rewrite Hcand in Htry.
  simpl in Htry. unfold ret in Htry. injection Htry as <- <-.
  rewrite (Hout tt env3 Hclose). now exists w'.
Qed.

End Tools.

(** A run of C10 on two candidates. *)
Lemma find_closest_title_in_bounds_witness :
  find_closest_title (u"abc") [u"ab"; u"abc"] < 2.
Proof.
  destruct (@find_closest_title_in_bounds (mock_driver quiet) (u"abc")
              [u"ab"; u"abc"] [u"/a"; u"/b"]) as (H & _).
  - discriminate.
  - reflexivity.
  - exact H.
Defined.

(** A run of C6: a link that does not mention the portal is turned down and
    nothing happens. *)
Lemma get_paper_detail_rejects_non_cnki_witness :
  @get_paper_detail (mock_driver quiet) (u"https://example.com/paper") (mock_start quiet)
  = (Returned not_cnki_error, mock_start quiet).
Proof.
  apply (@get_paper_detail_rejects_non_cnki (mock_driver quiet)
           (u"https://example.com/paper") (mock_start quiet)).
  right. vm_compute. reflexivity.
Defined.

(** C6 as stated fails: a link outside the portal's domain whose path
    mentions "cnki" passes the guard; a browser is launched, a page is
    leased and the link is visited. *)
Lemma foreign_url_is_fetched :
  in_portal_domain foreign_url = false
  /\ exists payload w',
       @get_paper_detail (mock_driver quiet) foreign_url (mock_start quiet)
         = (Returned payload, w')
       /\ dict_get payload "isError" = None
       /\ _browser (w_pool w') = Some 1
       /\ existsb (fun ev => match ev with
                             | EvCall (page_goto _ url) => str_eqb url foreign_url
                             | _ => false
                             end) (w_trace w') = true.
Proof.
  split; [vm_compute; reflexivity|].
  eexists _, _. split; [vm_compute; reflexivity|].
  repeat split.
Qed.

(** C5 as stated fails: when the browser cannot be launched the exception
    of the acquisition leaves [search_cnki], and when the page cannot be
    closed the exception of the [finally] block does. *)
Lemma search_cnki_lets_faults_escape :
  fst (@search_cnki (mock_driver no_browser) (u"graphene") (u"主题") None 1 (u"相关度")
         (mock_start no_browser)) = Raised (Exception (u"mock fault"))
  /\ fst (@search_cnki (mock_driver sticky_pages) (u"graphene") (u"主题") None 1 (u"相关度")
            (mock_start sticky_pages)) = Raised (Exception (u"mock fault"))
  /\ fst (@find_best_match (mock_driver no_browser) (u"graphene")
            (mock_start no_browser)) = Raised (Exception (u"mock fault"))
  /\ fst (@get_paper_detail (mock_driver no_browser) (u"https://www.cnki.net/x")
            (mock_start no_browser)) = Raised (Exception (u"mock fault")).
Proof. vm_compute. repeat split; reflexivity. Qed.

(** A run of C5: navigation fails; the search comes back with the error
    payload and the page has been closed. *)
Lemma tools_contain_faults_witness :
  exists w',
    @search_cnki (mock_driver unreachable) (u"graphene") (u"主题") None 1 (u"相关度")
      (mock_start unreachable)
    = (Returned (search_error (Exception (u"mock fault"))), w')
    /\ existsb (fun ev => match ev with EvCall (page_close 2) => true | _ => false end)
         (w_trace w') = true.
Proof.
  set (run := @search_cnki (mock_driver unreachable) (u"graphene") (u"主题") None 1
                (u"相关度") (mock_start unreachable)).
  set (g := @get_page (mock_driver unreachable)
              (opened (search_opening (u"graphene") None) (mock_start unreachable))).
  exists (snd run). split; [|vm_compute; reflexivity].
  destruct (@tools_contain_faults_after_lease (mock_driver unreachable)) as (Hsearch & _).
  destruct (Hsearch _ _ _ _ _ _ (fst run) (snd run) (surjective_pairing run))
    as [_ Hleased].
  assert (Hg : g = (Returned (mkPage 2 1), snd g)) by (vm_compute; reflexivity).
  destruct (Hleased (mkPage 2 1) (snd g) Hg) as (payload & w2 & Htry & _ & _ & Hout & _).
  match type of Htry with
  | ?lhs = _ =>
      assert (Ht : lhs = (Returned (search_error (Exception (u"mock fault"))), snd lhs))
        by (vm_compute; reflexivity);
      rewrite Ht in Htry
  end.
  apply pair_equal_spec in Htry as [Hpayload Hw2].
  injection Hpayload as <-.
  transitivity (fst run, snd run); [apply surjective_pairing|].
  apply f_equal2; [|exact eq_refl].
  apply (Hout tt 0). rewrite <- Hw2. vm_compute. reflexivity.
Defined.

(** C8 as stated fails: with no candidate the payload has a message and no
    candidate count. *)
Lemma no_candidates_payload_has_no_count :
  exists payload w',
    @find_best_match (mock_driver quiet) (u"x") (mock_start quiet) = (Returned payload, w')
    /\ dict_get payload "best_match" = Some VNone
    /\ dict_get payload "total_candidates" = None
    /\ dict_get payload "total_results" = None
    /\ map fst payload = ["query"; "best_match"; "message"]%string.
Proof.
  eexists _, _. split; [vm_compute; reflexivity|]. repeat split.
Qed.

(** A run of C8 on the empty portal. *)
Lemma find_best_match_no_candidates_witness :
  exists w',
    @find_best_match (mock_driver quiet) (u"x") (mock_start quiet)
    = (Returned (no_match (u"x")), w').
Proof.
  set (g := @get_page (mock_driver quiet) (opened (match_opening (u"x")) (mock_start quiet))).
  set (c := @find_candidates (mock_driver quiet) 2 (u"x") (snd g)).
  refine (proj1 (@find_best_match_no_candidates (mock_driver quiet) (u"x")
                   (mock_start quiet) (mkPage 2 1) (snd g) [] (snd c) 0 _ _ _)).
  - vm_compute. reflexivity.
  - vm_compute. reflexivity.
  - vm_compute. reflexivity.
Defined.

(** A run of X5: two pages are asked for and both are collected. *)
Lemma collect_all_pages_witness :
  exists papers w',
    @_collect_results (mock_driver three_pages) 0 2 (mock_start three_pages)
      = (Returned papers, w')
    /\ map (fun p => dict_get p "page") papers
       = [Some (VInt 1); Some (VInt 1); Some (VInt 2)].
Proof.
  destruct (@first_pages (mock_driver three_pages) 0 2 1 [] (mock_start three_pages))
    as [[papers wk]|] eqn:Hfirst; [|vm_compute in Hfirst; discriminate].
  exists papers, wk. split.
  - exact (@collect_all_pages_when_next_works (mock_driver three_pages) 0 2
             (mock_start three_pages) papers wk Hfirst).
  - vm_compute in Hfirst. injection Hfirst as <- <-. reflexivity.
Defined.

(* ===================================================================== *)
(** * Further properties of the code *)
(* ===================================================================== *)

(* --------------------------------------------------------------------- *)
(** ** Helpers on strings and dictionaries *)
(* --------------------------------------------------------------------- *)

Lemma table_mem_In d k : table_mem d k = true -> In k (table_keys d).
Proof.
  unfold table_mem, table_keys.
  induction d as [|[k' v] d IH]; simpl; [discriminate|].
  destruct (str_eqb k k') eqn:E.
  - apply str_eqb_eq in E. subst. now left.
  - right. now apply IH.
Qed.

Lemma table_get_pair d k v : table_get d k = Some v -> In (k, v) d.
Proof.
  induction d as [|[k' v'] d IH]; simpl; [discriminate|].
  destruct (str_eqb k k') eqn:E.
  - apply str_eqb_eq in E. subst. intros [= ->]. now left.
  - right. now apply IH.
Qed.

Lemma canonical_names_fixed :
  forallb (fun k => str_eqb (resolve_search_type k) k) (table_keys SEARCH_TYPES) = true
  /\ forallb (fun k => str_eqb (resolve_sort_type k) k) (table_keys SORT_TYPES) = true.
Proof. split; vm_compute; reflexivity. Qed.

Lemma resolve_search_type_canonical x :
  table_mem SEARCH_TYPES (resolve_search_type x) = true.
Proof.
  destruct aliases_are_canonical as [Hf _].
  rewrite resolve_search_type_unfold.
  destruct (table_get SEARCH_TYPE_ALIASES (strip (lower x))) as [c|] eqn:E.
  - apply table_get_In in E. rewrite forallb_forall in Hf. now apply Hf.
  - destruct (table_mem SEARCH_TYPES x) eqn:E'; [assumption | vm_compute; reflexivity].
Qed.

Lemma resolve_sort_type_canonical x :
  table_mem SORT_TYPES (resolve_sort_type x) = true.
Proof.
  destruct aliases_are_canonical as [_ Hs].
  rewrite resolve_sort_type_unfold.
  destruct (table_get SORT_TYPE_ALIASES (strip (lower x))) as [c|] eqn:E.
  - apply table_get_In in E. rewrite forallb_forall in Hs. now apply Hs.
  - destruct (table_mem SORT_TYPES x) eqn:E'; [assumption | vm_compute; reflexivity].
Qed.

Lemma split_on_nonempty sep s : split_on sep s <> [].
Proof.
  induction s as [|c r IH]; simpl; [discriminate|].
  destruct (c =? sep)%N; [discriminate|].
  destruct (split_on sep r); [contradiction | discriminate].
Qed.

Lemma split_on_no_sep sep a : ~ In sep a -> split_on sep a = [a].
Proof.
  induction a as [|c a IH]; intros H; [reflexivity|]. simpl.
  destruct (N.eqb_spec c sep) as [-> | Hne]; [exfalso; apply H; now left|].
  rewrite IH by (intros Hin; apply H; now right). reflexivity.
Qed.

Lemma split_on_app sep a b :
  ~ In sep a -> split_on sep (a ++ sep :: b) = a :: split_on sep b.
Proof.
  induction a as [|c a IH]; intros H; simpl.
  - now rewrite N.eqb_refl.
  - destruct (N.eqb_spec c sep) as [-> | Hne]; [exfalso; apply H; now left|].
    rewrite IH by (intros Hin; apply H; now right). reflexivity.
Qed.

Lemma split_on_head_app sep a x :
  ~ In sep a ->
  nth 0 (split_on sep (a ++ x)) [] = a ++ nth 0 (split_on sep x) [].
Proof.
  induction a as [|c a IH]; intros H; [reflexivity|]. simpl.
  destruct (N.eqb_spec c sep) as [-> | Hne]; [exfalso; apply H; now left|].
  specialize (IH ltac:(intros Hin; apply H; now right)).
  destruct (split_on sep (a ++ x)) as [|w ws] eqn:E.
  - exfalso. exact (split_on_nonempty _ _ E).
  - simpl in *. now rewrite IH.
Qed.

Lemma split_on_head_sep sep x : nth 0 (split_on sep ([sep] ++ x)) [] = [].
Proof. simpl. now rewrite N.eqb_refl. Qed.

Lemma last_cons_nonempty {A} (x : A) l d : l <> [] -> last (x :: l) d = last l d.
Proof. destruct l; [contradiction | reflexivity]. Qed.

Lemma split_on_tail sep a b :
  exists w ws,
    split_on sep (a ++ sep :: b) = w :: ws
    /\ ws <> []
    /\ last ws [] = last (split_on sep b) [].
Proof.
  induction a as [|c a (w & ws & E & Hne & Hlast)]; simpl.
  - rewrite N.eqb_refl. exists [], (split_on sep b).
    split; [reflexivity|]. split; [apply split_on_nonempty | reflexivity].
  - rewrite E. destruct (c =? sep)%N.
    + exists [], (w :: ws). split; [reflexivity|]. split; [discriminate|].
      now rewrite last_cons_nonempty.
    + exists (c :: w), ws. now repeat split.
Qed.

Lemma split_on_last sep a b :
  ~ In sep b -> last (split_on sep (a ++ sep :: b)) [] = b.
Proof.
  intros Hb. destruct (split_on_tail sep a b) as (w & ws & -> & Hne & Hlast).
  rewrite last_cons_nonempty by assumption.
  now rewrite Hlast, split_on_no_sep.
Qed.

Lemma char_in_app c a b : char_in c (a ++ b) = char_in c a || char_in c b.
Proof. unfold char_in. apply existsb_app. Qed.

Lemma char_in_here c a : char_in c (c :: a) = true.
Proof. unfold char_in. simpl. now rewrite N.eqb_refl. Qed.

Lemma char_in_mid c a b : char_in c (a ++ c :: b) = true.
Proof. now rewrite char_in_app, char_in_here, orb_true_r. Qed.

Lemma dict_get_set_other d k k' v :
  k <> k' -> dict_get (dict_set d k v) k' = dict_get d k'.
Proof.
  intros Hne. induction d as [|[k0 v0] d IH]; simpl.
  - destruct (String.eqb_spec k' k); [congruence | reflexivity].
  - destruct (String.eqb_spec k k0) as [-> | Hk]; simpl.
    + destruct (String.eqb_spec k' k0); [congruence | reflexivity].
    + destruct (String.eqb_spec k' k0); [reflexivity | exact IH].
Qed.

Lemma dict_set_keys d k v :
  map fst (dict_set d k v) = if dict_mem d k then map fst d else map fst d ++ [k].
Proof.
  unfold dict_mem. induction d as [|[k0 v0] d IH]; simpl; [reflexivity|].
  destruct (String.eqb k k0); simpl; [reflexivity|].
  rewrite IH. now destruct (existsb (String.eqb k) (map fst d)).
Qed.

Lemma dict_set_keys_present d k v :
  dict_mem d k = true -> map fst (dict_set d k v) = map fst d.
Proof. intros H. now rewrite dict_set_keys, H. Qed.

Lemma dict_mem_keys d d' k : map fst d = map fst d' -> dict_mem d k = dict_mem d' k.
Proof. unfold dict_mem. now intros ->. Qed.

(* --------------------------------------------------------------------- *)
(** ** Alias resolver and fuzzy matcher, continued *)
(* --------------------------------------------------------------------- *)

(** X20.  Every canonical name resolves to itself, so resolving an input
    twice gives what resolving it once gives. *)
Theorem resolve_idempotent (x : str) :
  resolve_search_type (resolve_search_type x) = resolve_search_type x
  /\ resolve_sort_type (resolve_sort_type x) = resolve_sort_type x
  /\ (forall k, table_mem SEARCH_TYPES k = true -> resolve_search_type k = k)
  /\ (forall k, table_mem SORT_TYPES k = true -> resolve_sort_type k = k).
Proof.
  destruct canonical_names_fixed as [Hf Hs].
  rewrite forallb_forall in Hf, Hs.
  assert (Hkf : forall k, table_mem SEARCH_TYPES k = true -> resolve_search_type k = k)
    by (intros k Hk; now apply str_eqb_eq, Hf, table_mem_In).
  assert (Hks : forall k, table_mem SORT_TYPES k = true -> resolve_sort_type k = k)
    by (intros k Hk; now apply str_eqb_eq, Hs, table_mem_In).
  repeat split; auto.
  - apply Hkf, resolve_search_type_canonical.
  - apply Hks, resolve_sort_type_canonical.
Qed.

(** X19.  When no candidate shares a character with the query, the first
    candidate is the answer. *)
Theorem find_closest_title_no_overlap (title : str) (titles : list str) :
  (forall t, In t titles -> common_chars title t = 0) ->
  find_closest_title title titles = 0.
Proof.
  intros Hzero.
  pose proof (find_closest_title_first_max title titles) as Hfm. cbv zeta in Hfm.
  destruct Hfm as (Hb & _ & Hfirst).
  destruct Hb as [Hlt | ->]; [|reflexivity].
  destruct (find_closest_title title titles) as [|r] eqn:E; [reflexivity|].
  exfalso. specialize (Hfirst 0 ltac:(lia)).
  rewrite (Hzero (nth (S r) titles [])) in Hfirst by (apply nth_In; exact Hlt).
  lia.
Qed.

(** A run of X19. *)
Lemma find_closest_title_no_overlap_witness :
  find_closest_title (u"xyz") [u"ab"; u"cd"] = 0.
Proof.
  apply find_closest_title_no_overlap.
  intros t [<- | [<- | []]]; reflexivity.
Defined.

(* --------------------------------------------------------------------- *)
(** ** Detail text *)
(* --------------------------------------------------------------------- *)

(** X15.  A text of the form "year,volume(issue):pages", whose parts hold
    none of the delimiters that would cut them, is split into exactly these
    four parts, each trimmed. *)
Theorem parse_info_well_formed (paper : dict) (year volume issue pages : str) :
  ~ In 44%N year -> ~ In 44%N volume -> ~ In 44%N issue -> ~ In 44%N pages ->
  ~ In 40%N volume -> ~ In 40%N issue -> ~ In 41%N issue ->
  ~ In 58%N pages ->
  parse_info paper (info_text_of year volume issue pages) =
    dict_set
      (dict_set
         (dict_set
            (dict_set paper "year" (VStr (strip year)))
            "volume" (VStr (strip volume)))
         "issue" (VStr (strip issue)))
      "pages" (VStr (strip pages)).
Proof.
  intros Hy Hv Hi Hp Hv40 Hi40 Hi41 Hp58.
  unfold parse_info, info_text_of.
  set (rest := volume ++ 40%N :: issue ++ 41%N :: 58%N :: pages).
  assert (Hrest : ~ In 44%N rest).
  { unfold rest. rewrite in_app_iff. simpl. rewrite in_app_iff. simpl. intros H.
    repeat destruct H as [H | H]; try contradiction; try discriminate. }
  rewrite char_in_mid.
  rewrite split_on_app by assumption.
  rewrite (split_on_no_sep 44 rest) by assumption.
  cbn [length Nat.ltb Nat.leb nth].
  assert (H40 : char_in 40 rest = true) by apply char_in_mid.
  assert (H41 : char_in 41 rest = true).
  { unfold rest. rewrite char_in_app.
    replace (char_in 41 (40%N :: issue ++ 41%N :: 58%N :: pages)) with true;
      [apply orb_true_r|].
    symmetry. apply (char_in_mid 41 (40%N :: issue)). }
  assert (H58 : char_in 58 rest = true).
  { unfold rest.
    replace (volume ++ 40%N :: issue ++ 41%N :: 58%N :: pages)
      with ((volume ++ 40%N :: issue ++ [41%N]) ++ 58%N :: pages);
      [apply char_in_mid|].
    rewrite <- app_assoc. simpl. now rewrite <- app_assoc. }
  rewrite H40, H41, H58. cbn [andb].
  assert (Hvol : nth 0 (split_on 40 rest) [] = volume).
  { unfold rest. now rewrite split_on_app. }
  assert (Hiss : nth 0 (split_on 41 (nth 1 (split_on 40 rest) [])) [] = issue).
  { unfold rest. rewrite split_on_app by assumption. cbn [nth].
    rewrite (split_on_head_app 40 issue) by assumption.
    rewrite (split_on_head_app 41 issue) by assumption.
    change (41%N :: 58%N :: pages) with ([41%N] ++ 58%N :: pages).
    rewrite (split_on_head_app 40 [41%N]) by (simpl; intros [H | []]; discriminate).
    rewrite split_on_head_sep. apply app_nil_r. }
  assert (Hpag : last (split_on 58 rest) [] = pages).
  { unfold rest.
    replace (volume ++ 40%N :: issue ++ 41%N :: 58%N :: pages)
      with ((volume ++ 40%N :: issue ++ [41%N]) ++ 58%N :: pages).
    - now apply split_on_last.
    - rewrite <- app_assoc. simpl. now rewrite <- app_assoc. }
  rewrite Hvol, Hiss, Hpag. reflexivity.
Qed.

(** A run of X15 on "2023, 45(3): 12-20". *)
Lemma parse_info_well_formed_witness :
  parse_info [ ("year", VStr []); ("volume", VStr []); ("issue", VStr []);
               ("pages", VStr []) ]%string (u"2023, 45(3): 12-20")
  = [ ("year", VStr (u"2023")); ("volume", VStr (u"45")); ("issue", VStr (u"3"));
      ("pages", VStr (u"12-20")) ]%string.
Proof.
  refine (eq_trans
            (@parse_info_well_formed
               [ ("year", VStr []); ("volume", VStr []); ("issue", VStr []);
                 ("pages", VStr []) ]%string
               (u"2023") (u" 45") (u"3") (u" 12-20") _ _ _ _ _ _ _ _) _);
    vm_compute; intuition discriminate.
Defined.

(** X16.  [parse_info] writes to the year, volume, issue and pages of the
    record only, adds no key to a record that has these four, and leaves the
    record alone when the text has no comma. *)
Theorem parse_info_frame (paper : dict) (info_text : str) :
  (char_in 44 info_text = false -> parse_info paper info_text = paper)
  /\ (forall k, k <> "year"%string -> k <> "volume"%string -> k <> "issue"%string ->
                k <> "pages"%string ->
                dict_get (parse_info paper info_text) k = dict_get paper k)
  /\ (dict_mem paper "year" = true -> dict_mem paper "volume" = true ->
      dict_mem paper "issue" = true -> dict_mem paper "pages" = true ->
      map fst (parse_info paper info_text) = map fst paper).
Proof.
  unfold parse_info. split; [now intros ->|]. split.
  - intros k Hy Hv Hi Hp.
    repeat match goal with
           | |- context [if ?c then _ else _] => destruct c
           | |- context [dict_get (dict_set _ ?k' _) k] =>
               rewrite dict_get_set_other by congruence
           end; reflexivity.
  - intros Hy Hv Hi Hp.
    assert (Hk : forall d k v, map fst d = map fst paper -> dict_mem paper k = true ->
                               map fst (dict_set d k v) = map fst paper).
    { intros d k v Hd Hm. rewrite dict_set_keys_present; [assumption|].
      now rewrite (dict_mem_keys d paper k Hd). }
    repeat match goal with
           | |- context [if ?c then _ else _] => destruct c
           end;
      repeat (apply Hk; [|assumption]); reflexivity.
Qed.

(** The frame of [parse_info], for use below. *)
Lemma parse_info_other_keys paper info_text k :
  k <> "year"%string -> k <> "volume"%string -> k <> "issue"%string ->
  k <> "pages"%string ->
  dict_get (parse_info paper info_text) k = dict_get paper k.
Proof.
  intros Hy Hv Hi Hp. unfold parse_info.
  repeat match goal with
         | |- context [if ?c then _ else _] => destruct c
         | |- context [dict_get (dict_set _ ?k' _) k] =>
             rewrite dict_get_set_other by congruence
         end; reflexivity.
Qed.

Lemma detail_keys_set d k v :
  map fst d = DETAIL_KEYS -> existsb (String.eqb k) DETAIL_KEYS = true ->
  map fst (dict_set d k v) = DETAIL_KEYS.
Proof.
  intros Hd Hk. rewrite dict_set_keys_present; [assumption|].
  unfold dict_mem. now rewrite Hd.
Qed.

Lemma detail_keys_parse d info :
  map fst d = DETAIL_KEYS -> map fst (parse_info d info) = DETAIL_KEYS.
Proof.
  intros Hd. rewrite <- Hd. unfold parse_info.
  assert (Hk : forall d' k v, map fst d' = map fst d ->
                              existsb (String.eqb k) DETAIL_KEYS = true ->
                              map fst (dict_set d' k v) = map fst d).
  { intros d' k v Hd' Hm. rewrite dict_set_keys_present; [assumption|].
    unfold dict_mem. now rewrite Hd', Hd. }
  repeat match goal with
         | |- context [if ?c then _ else _] => destruct c
         end;
    repeat (apply Hk; [|reflexivity]); reflexivity.
Qed.

(* --------------------------------------------------------------------- *)
(** ** Session pool, the other branches *)
(* --------------------------------------------------------------------- *)

Section PoolBranches.
Context {D : Driver}.

Ltac run_pool :=
  cbv [close get_page with_lock _close_internal _create_browser _is_browser_alive
       bind ret raise log call fresh store read_pool try_except try_finally
       w_env w_next w_pool w_trace _browser _playwright _last_used].

Ltac answers :=
  repeat (match goal with
          | |- context [respond ?c ?e] =>
              let E := fresh "E" in
              destruct (respond c e) as [[?|?] ?] eqn:E; simpl
          | |- context [negb ?b] => is_var b; destruct b; simpl
          | |- context [if ?b then _ else _] => is_var b; destruct b; simpl
          end).

Lemma idle_expired_false now pool :
  (IDLE_TIMEOUT <? now - _last_used pool)%float = false -> idle_expired now pool = false.
Proof. intros H. exact H. Qed.

(** X7.  A session that is not idle and still connected is reused.  Under
    the lock [get_page] reads the clock, asks the browser whether it is
    connected and stamps the pool, which otherwise stays as it was.  After
    the lock it draws a user agent, opens a new page on that same browser
    and installs the init script on the page, and does nothing else: it
    raises what the first of these three calls raises, and otherwise returns
    the new page, a page of that browser. *)
Theorem get_page_reuses_live_session (w : World) (b : handle) (now : float)
    (env1 env2 : Env) :
  _browser (w_pool w) = Some b ->
  respond time_time (w_env w) = (inr now, env1) ->
  (IDLE_TIMEOUT <? now - _last_used (w_pool w))%float = false ->
  respond (browser_is_connected b) env1 = (inr true, env2) ->
  forall r w', get_page w = (r, w') ->
    w_pool w' = {| _playwright := _playwright (w_pool w); _browser := Some b;
                   _last_used := now |}
    /\ exists rest,
         w_trace w' =
           w_trace w ++ [EvAcquire; EvCall time_time; EvCall (browser_is_connected b);
                         EvStore (set_last_used now); EvRelease] ++ rest
         /\ match respond (random_choice (length USER_AGENTS)) env2 with
            | (inl e, _) =>
                r = Raised e /\ rest = [EvCall (random_choice (length USER_AGENTS))]
            | (inr i, env3) =>
                let user_agent := nth (i mod length USER_AGENTS) USER_AGENTS [] in
                match respond (browser_new_page b user_agent) env3 with
                | (inl e, _) =>
                    r = Raised e
                    /\ rest = [EvCall (random_choice (length USER_AGENTS));
                               EvCall (browser_new_page b user_agent)]
                | (inr _, env4) =>
                    rest = [EvCall (random_choice (length USER_AGENTS));
                            EvCall (browser_new_page b user_agent);
                            EvCall (page_add_init_script (w_next w))]
                    /\ match respond (page_add_init_script (w_next w)) env4 with
                       | (inl e, _) => r = Raised e
                       | (inr _, _) =>
                           r = Returned {| page_id := w_next w; page_session := b |}
                       end
                end
            end.
Proof.
  destruct w as [env nxt [pw br lu] tr]. simpl.
  intros -> Hnow Hidle Halive r w'.
  run_pool. rewrite Hnow.
  rewrite (@idle_expired_false now
             {| _playwright := pw; _browser := Some b; _last_used := lu |} Hidle).
  simpl. rewrite Halive. simpl.
  answers; intros [= <- <-]; simpl;
    (split; [reflexivity|]);
    eexists; (split; [rewrite <- ?app_assoc; reflexivity|]);
    repeat split; reflexivity.
Qed.

(** X8.  A session that no longer answers as connected (the check says no,
    or raises) is forgotten without being closed, and the pool never holds
    it again.  A new one is created in its place: if starting the engine or
    launching the browser raises, the call raises that exception, the pool
    holds no browser and the last-used time is left alone; once the browser
    is launched the pool holds it, a new object, stamped with the time read
    at entry.  A page that is returned is a page of the session launched in
    this call, after the old one was dropped. *)
Theorem get_page_replaces_dead_session (w : World) (b : handle) (now : float)
    (env1 : Env) :
  pool_wf w ->
  _browser (w_pool w) = Some b ->
  respond time_time (w_env w) = (inr now, env1) ->
  (IDLE_TIMEOUT <? now - _last_used (w_pool w))%float = false ->
  fst (respond (browser_is_connected b) env1) <> inr true ->
  forall r w', get_page w = (r, w') ->
    exists rest,
      w_trace w' =
        w_trace w ++ [EvAcquire; EvCall time_time; EvCall (browser_is_connected b);
                      EvStore (set_browser None)] ++ rest
      /\ existsb is_browser_close rest = false
      /\ _browser (w_pool w') <> Some b
      /\ (let env2 := snd (respond (browser_is_connected b) env1) in
          match _playwright (w_pool w) with
          | Some pw =>
              match respond (chromium_launch pw) env2 with
              | (inl e, _) =>
                  r = Raised e /\ _browser (w_pool w') = None
                  /\ _last_used (w_pool w') = _last_used (w_pool w)
              | (inr _, _) =>
                  _browser (w_pool w') = Some (w_next w)
                  /\ _last_used (w_pool w') = now
              end
          | None =>
              match respond playwright_start env2 with
              | (inl e, _) =>
                  r = Raised e /\ _browser (w_pool w') = None
                  /\ _last_used (w_pool w') = _last_used (w_pool w)
              | (inr _, env3) =>
                  match respond (chromium_launch (w_next w)) env3 with
                  | (inl e, _) =>
                      r = Raised e /\ _browser (w_pool w') = None
                      /\ _last_used (w_pool w') = _last_used (w_pool w)
                  | (inr _, _) =>
                      _browser (w_pool w') = Some (S (w_next w))
                      /\ _last_used (w_pool w') = now
                  end
              end
          end)
      /\ forall page, r = Returned page ->
           let b' := page_session page in
           b' <> b
           /\ w_next w <= b'
           /\ page_id page = S b'
           /\ _browser (w_pool w') = Some b'
           /\ exists pw boot i,
                (boot = [] /\ _playwright (w_pool w) = Some pw /\ b' = w_next w
                 \/ boot = [EvCall playwright_start; EvStore (set_playwright (Some pw))]
                    /\ _playwright (w_pool w) = None /\ pw = w_next w /\ b' = S pw)
                /\ rest =
                     boot
                     ++ [EvCall (chromium_launch pw); EvStore (set_browser (Some b'));
                         EvStore (set_last_used now); EvRelease;
                         EvCall (random_choice (length USER_AGENTS));
                         EvCall (browser_new_page b'
                                   (nth (i mod length USER_AGENTS) USER_AGENTS []));
                         EvCall (page_add_init_script (page_id page))].
Proof.
  destruct w as [env nxt [pw br lu] tr]. unfold pool_wf. simpl.
  intros [Hb _] -> Hnow Hidle Hdead r w'. specialize (Hb b eq_refl).
  run_pool. rewrite Hnow.
  rewrite (@idle_expired_false now
             {| _playwright := pw; _browser := Some b; _last_used := lu |} Hidle).
  simpl.
  destruct (respond (browser_is_connected b) env1) as [[e | [|]] env2]; simpl in *;
    [| congruence |];
    (destruct pw as [p|]; simpl; answers; intros [= <- <-]; simpl;
     eexists; (split; [rewrite <- ?app_assoc; reflexivity|]);
     (split; [reflexivity|]);
     (split; [first [discriminate | intros [= ?]; lia]|]);
     (split; [repeat split; reflexivity|]);
     first [ intros page; discriminate
           | intros page [= <-]; simpl;
             (split; [lia|]); (split; [lia|]); (split; [reflexivity|]);
             (split; [reflexivity|]);
             first [ exists p, [], n; split; [left; repeat split | reflexivity]
                   | exists nxt,
                       [EvCall playwright_start; EvStore (set_playwright (Some nxt))], n;
                     split; [right; repeat split | reflexivity] ] ]).
Qed.

(** X9.  The engine is started at most once: with an engine in the pool,
    [get_page] keeps it and starts no other, whichever branch it takes. *)
Theorem get_page_starts_engine_once (w : World) (pw : handle) :
  _playwright (w_pool w) = Some pw ->
  forall r w', get_page w = (r, w') ->
    _playwright (w_pool w') = Some pw
    /\ exists new, w_trace w' = w_trace w ++ new /\ existsb is_engine_start new = false.
Proof.
  destruct w as [env nxt [p br lu] tr]. simpl. intros -> r w'.
  run_pool.
  destruct (respond time_time env) as [[e | tnow] env1]; simpl.
  - intros [= <- <-]. simpl. split; [reflexivity|].
    rewrite <- !app_assoc. eexists. split; reflexivity.
  - destruct br as [b|]; simpl;
      try (destruct (idle_expired tnow _); simpl);
      answers; intros [= <- <-]; simpl; (split; [reflexivity|]);
      rewrite <- ?app_assoc; eexists; split; reflexivity.
Qed.

(** X23.  With no session in the pool, [get_page] creates one without asking
    any browser whether it is connected and without closing any.  If
    starting the engine or launching the browser raises, the call raises
    that exception, the pool still holds no browser and the last-used time is
    the old one.  Once the browser is launched the pool holds it, a new
    object, stamped with the time read at entry, and a page that comes back
    is a page of that browser. *)
Theorem get_page_creates_lazily (w : World) (now : float) (env1 : Env) :
  _browser (w_pool w) = None ->
  respond time_time (w_env w) = (inr now, env1) ->
  forall r w', get_page w = (r, w') ->
    exists new,
      w_trace w' = w_trace w ++ [EvAcquire; EvCall time_time] ++ new
      /\ existsb is_browser_close new = false
      /\ existsb is_connected_query new = false
      /\ match _playwright (w_pool w) with
         | Some pw =>
             match respond (chromium_launch pw) env1 with
             | (inl e, _) =>
                 r = Raised e /\ w_pool w' = w_pool w
                 /\ new = [EvCall (chromium_launch pw); EvRelease]
             | (inr _, _) =>
                 w_pool w' = {| _playwright := Some pw; _browser := Some (w_next w);
                                _last_used := now |}
             end
         | None =>
             match respond playwright_start env1 with
             | (inl e, _) =>
                 r = Raised e /\ w_pool w' = w_pool w
                 /\ new = [EvCall playwright_start; EvRelease]
             | (inr _, env2) =>
                 match respond (chromium_launch (w_next w)) env2 with
                 | (inl e, _) =>
                     r = Raised e
                     /\ w_pool w' = {| _playwright := Some (w_next w); _browser := None;
                                       _last_used := _last_used (w_pool w) |}
                 | (inr _, _) =>
                     w_pool w' = {| _playwright := Some (w_next w);
                                    _browser := Some (S (w_next w));
                                    _last_used := now |}
                 end
             end
         end
      /\ forall page, r = Returned page ->
           let b' := page_session page in
           _browser (w_pool w') = Some b'
           /\ page_id page = S b'
           /\ exists pw boot i,
                (boot = [] /\ _playwright (w_pool w) = Some pw /\ b' = w_next w
                 \/ boot = [EvCall playwright_start; EvStore (set_playwright (Some pw))]
                    /\ _playwright (w_pool w) = None /\ pw = w_next w /\ b' = S pw)
                /\ new =
                     boot
                     ++ [EvCall (chromium_launch pw); EvStore (set_browser (Some b'));
                         EvStore (set_last_used now); EvRelease;
                         EvCall (random_choice (length USER_AGENTS));
                         EvCall (browser_new_page b'
                                   (nth (i mod length USER_AGENTS) USER_AGENTS []));
                         EvCall (page_add_init_script (page_id page))].
Proof.
  destruct w as [env nxt [pw br lu] tr]. simpl. intros -> Hnow r w'.
  run_pool. rewrite Hnow. simpl.
  destruct pw as [p|]; simpl; answers; intros [= <- <-]; simpl;
    eexists; (split; [rewrite <- ?app_assoc; reflexivity|]);
    (split; [reflexivity|]); (split; [reflexivity|]);
    (split; [repeat split; reflexivity|]);
    first [ intros page; discriminate
          | intros page [= <-]; simpl;
            (split; [reflexivity|]); (split; [reflexivity|]);
            first [ exists p, [], n; split; [left; repeat split | reflexivity]
                  | exists nxt,
                      [EvCall playwright_start; EvStore (set_playwright (Some nxt))], n;
                    split; [right; repeat split | reflexivity] ] ].
Qed.

(** X10.  [lifespan] closes the pool whatever the server did: whether the
    served part returns or raises, its outcome is passed on, the pool has
    been closed after it, and the pool holds neither session nor engine. *)
Theorem lifespan_always_closes {A} (serve : M A) (w : World) :
  let '(r, w1) := serve (snd (new_pool w)) in
  exists w2,
    lifespan serve w = (r, w2)
    /\ close w1 = (Returned tt, w2)
    /\ _browser (w_pool w2) = None
    /\ _playwright (w_pool w2) = None.
Proof.
  unfold lifespan, bind, try_finally, new_pool. simpl.
  destruct (serve _) as [r w1].
  destruct (close_run w1) as (w2 & Hclose & Hb & Hp & _).
  exists w2. rewrite Hclose. repeat split; assumption.
Qed.

End PoolBranches.

(** A run of X7: the session of the warm pool is kept, and the page handed
    out is page 2 of session 1. *)
Lemma get_page_reuses_live_session_witness :
  w_pool (snd (@get_page (mock_driver quiet) warm_world))
    = {| _playwright := Some 0; _browser := Some 1; _last_used := 1000 |}
  /\ fst (@get_page (mock_driver quiet) warm_world)
     = Returned {| page_id := 2; page_session := 1 |}.
Proof.
  destruct (@get_page_reuses_live_session (mock_driver quiet) warm_world 1 1000%float 0 0
              eq_refl eq_refl eq_refl eq_refl _ _
              (surjective_pairing (@get_page (mock_driver quiet) warm_world)))
    as (Hpool & rest & _ & _ & Hpage).
  split; [exact Hpool | exact Hpage].
Defined.

(** A run of X8: the browser of the pool does not answer; it is dropped and
    not closed, and the pool holds a browser launched in its place. *)
Lemma get_page_replaces_dead_session_witness :
  exists rest,
    w_trace (snd (@get_page (mock_driver lost_browser) lost_world)) =
      w_trace lost_world ++ [EvAcquire; EvCall time_time; EvCall (browser_is_connected 1);
                             EvStore (set_browser None)] ++ rest
    /\ existsb is_browser_close rest = false
    /\ _browser (w_pool (snd (@get_page (mock_driver lost_browser) lost_world))) = Some 2
    /\ _last_used (w_pool (snd (@get_page (mock_driver lost_browser) lost_world)))
       = 1000%float.
Proof.
  assert (Hwf : @pool_wf (mock_driver lost_browser) lost_world)
    by (split; intros x [= <-]; simpl; lia).
  assert (Hdead : fst (@respond (mock_driver lost_browser) _ (browser_is_connected 1) 0)
                  <> inr true)
    by (simpl; discriminate).
  destruct (@get_page_replaces_dead_session (mock_driver lost_browser) lost_world 1
              1000%float 0 Hwf eq_refl eq_refl eq_refl Hdead _ _
              (surjective_pairing (@get_page (mock_driver lost_browser) lost_world)))
    as (rest & Htrace & Hclose & _ & Hnew & _).
  exists rest. split; [exact Htrace|]. split; [exact Hclose|]. exact Hnew.
Defined.

(** A run of X9: the idle session is replaced, the engine is not. *)
Lemma get_page_starts_engine_once_witness :
  _playwright (w_pool (snd (@get_page (mock_driver quiet) idle_world))) = Some 0.
Proof.
  exact (proj1
    (@get_page_starts_engine_once (mock_driver quiet) idle_world 0 eq_refl _ _
       (surjective_pairing (@get_page (mock_driver quiet) idle_world)))).
Defined.

(** Runs of X23: the first acquisition after server start, and one on a
    portal whose browser cannot be launched. *)
Lemma get_page_creates_lazily_witness :
  w_pool (snd (@get_page (mock_driver quiet) (mock_start quiet)))
    = {| _playwright := Some 0; _browser := Some 1; _last_used := 1000 |}
  /\ fst (@get_page (mock_driver no_browser) (mock_start no_browser))
     = Raised (Exception (u"mock fault"))
  /\ w_pool (snd (@get_page (mock_driver no_browser) (mock_start no_browser)))
     = {| _playwright := Some 0; _browser := None; _last_used := 0 |}.
Proof.
  destruct (@get_page_creates_lazily (mock_driver quiet) (mock_start quiet) 1000%float 0
              eq_refl eq_refl _ _
              (surjective_pairing (@get_page (mock_driver quiet) (mock_start quiet))))
    as (new & _ & _ & _ & Hpool & _).
  destruct (@get_page_creates_lazily (mock_driver no_browser) (mock_start no_browser)
              1000%float 0 eq_refl eq_refl _ _
              (surjective_pairing
                 (@get_page (mock_driver no_browser) (mock_start no_browser))))
    as (new' & _ & _ & _ & (Hraised & Hpool') & _).
  split; [exact Hpool|]. split; [exact Hraised | exact Hpool'].
Defined.

(* --------------------------------------------------------------------- *)
(** ** Typing, sorting and collecting *)
(* --------------------------------------------------------------------- *)

Section SearchSteps.
Context {D : Driver}.

Lemma press_each_in_order page selector text : forall w,
  exists n,
    n <= length text
    /\ w_trace (snd (press_each page selector text w))
       = w_trace w ++ presses page selector (firstn n text)
    /\ (fst (press_each page selector text w) = Returned tt -> n = length text).
Proof.
  induction text as [|c text IH]; intros w.
  - exists 0. simpl. rewrite app_nil_r. repeat split; lia.
  - destruct w as [env nxt pool tr]. simpl.
    unfold bind, call; simpl.
    destruct (respond (locator_press_sequentially page selector c) env) as [[e | []] env1];
      simpl.
    + exists 1. simpl. split; [lia|]. split; [reflexivity | discriminate].
    + match goal with |- context [press_each _ _ _ ?w1] =>
        destruct (IH w1) as (n & Hn & Htr & Hret) end.
      exists (S n). simpl. split; [lia|]. split.
      * rewrite Htr. simpl. now rewrite <- app_assoc.
      * intros H. now rewrite Hret.
Qed.

Lemma press_each_returns page selector text : forall env nxt pool tr env2,
  presses_answered page selector text env = Some env2 ->
  press_each page selector text
    {| w_env := env; w_next := nxt; w_pool := pool; w_trace := tr |}
    = (Returned tt,
       {| w_env := env2; w_next := nxt; w_pool := pool;
          w_trace := tr ++ presses page selector text |}).
Proof.
  induction text as [|c text IH]; intros env nxt pool tr env2; simpl.
  - intros [= <-]. unfold ret. now rewrite app_nil_r.
  - unfold bind, call; simpl.
    destruct (respond (locator_press_sequentially page selector c) env) as [[e | []] env1];
      [discriminate|].
    intros H. rewrite (IH _ _ _ _ _ H). now rewrite <- app_assoc.
Qed.

Lemma press_each_raises page selector pre c post e env3 : forall env nxt pool tr env2,
  presses_answered page selector pre env = Some env2 ->
  respond (locator_press_sequentially page selector c) env2 = (inl e, env3) ->
  press_each page selector (pre ++ c :: post)
    {| w_env := env; w_next := nxt; w_pool := pool; w_trace := tr |}
    = (Raised e,
       {| w_env := env3; w_next := nxt; w_pool := pool;
          w_trace := tr ++ presses page selector (pre ++ [c]) |}).
Proof.
  induction pre as [|c0 pre IH]; intros env nxt pool tr env2; simpl.
  - intros [= <-] Hc. unfold bind, call; simpl. now rewrite Hc.
  - unfold bind, call; simpl.
    destruct (respond (locator_press_sequentially page selector c0) env)
      as [[e0 | []] env1]; [discriminate|].
    intros H Hc. rewrite (IH _ _ _ _ _ H Hc). now rewrite <- app_assoc.
Qed.

(** X11.  [type_slowly] clears the field, then presses the characters of the
    text one at a time in their order, and does nothing else.  It raises
    what clearing raises, without pressing anything; it raises what the
    first failing press raises, right after that press; and it returns, all
    characters pressed, when no call raises. *)
Theorem type_slowly_types_in_order (page : handle) (selector text : str) (w : World) :
  (exists n,
     n <= length text
     /\ w_trace (snd (type_slowly page selector text w))
        = w_trace w ++ EvCall (locator_clear page selector)
                       :: presses page selector (firstn n text)
     /\ (fst (type_slowly page selector text w) = Returned tt -> n = length text))
  /\ (forall e env1,
        respond (locator_clear page selector) (w_env w) = (inl e, env1) ->
        type_slowly page selector text w
          = (Raised e, after_calls w env1 [EvCall (locator_clear page selector)]))
  /\ (forall x env1 pre c post env2 e env3,
        text = pre ++ c :: post ->
        respond (locator_clear page selector) (w_env w) = (inr x, env1) ->
        presses_answered page selector pre env1 = Some env2 ->
        respond (locator_press_sequentially page selector c) env2 = (inl e, env3) ->
        type_slowly page selector text w
          = (Raised e,
             after_calls w env3
               (EvCall (locator_clear page selector)
                :: presses page selector (pre ++ [c]))))
  /\ (forall x env1 env2,
        respond (locator_clear page selector) (w_env w) = (inr x, env1) ->
        presses_answered page selector text env1 = Some env2 ->
        type_slowly page selector text w
          = (Returned tt,
             after_calls w env2
               (EvCall (locator_clear page selector) :: presses page selector text))).
Proof.
  destruct w as [env nxt pool tr]. unfold type_slowly.
  unfold bind, call; simpl.
  split; [|split; [|split]].
  - destruct (respond (locator_clear page selector) env) as [[e | []] env1]; simpl.
    + exists 0. simpl. split; [lia|]. split; [reflexivity | discriminate].
    + match goal with |- context [press_each _ _ _ ?w1] =>
        destruct (press_each_in_order page selector text w1) as (n & Hn & Htr & Hret) end.
      exists n. split; [assumption|]. split; [|assumption].
      rewrite Htr. simpl. now rewrite <- app_assoc.
  - intros e env1 ->. reflexivity.
  - intros x env1 pre c post env2 e env3 -> -> Hpre Hc.
    rewrite (@press_each_raises page selector pre c post e env3 _ _ _ _ env2 Hpre Hc).
    unfold after_calls. simpl. now rewrite <- app_assoc.
  - intros x env1 env2 -> Hall.
    rewrite (@press_each_returns page selector text _ _ _ _ env2 Hall).
    unfold after_calls. simpl. now rewrite <- app_assoc.
Qed.

(** X14.  Changing the sort order never fails a search: the block returns
    whatever the clicks do, and for the default order it touches nothing. *)
Theorem apply_sort_never_raises (page : handle) (sort : str) (w : World) :
  (exists w', apply_sort page sort w = (Returned tt, w'))
  /\ apply_sort page (u"相关度") w = (Returned tt, w).
Proof.
  split; [|reflexivity].
  unfold apply_sort.
  destruct (negb (str_eqb sort (u"相关度"))); [|now eexists].
  destruct (table_get SORT_TYPES sort) as [sort_id|]; [|now eexists].
  destruct (negb (falsy sort_id)); [|now eexists].
  match goal with |- context [try_except ?m _ w] =>
    destruct (try_except_total m (fun _ => tt) w) as ([] & w' & H & _) end.
  now exists w'.
Qed.

Lemma tag_page_record n paper :
  has_title paper = true -> record_of_page n (tag_page n paper).
Proof.
  intros H. split; [apply dict_get_set|].
  unfold tag_page, dict_truthy. rewrite dict_get_set_other by discriminate. exact H.
Qed.

Lemma collect_page_appends page n all_papers w :
  exists new w',
    collect_page page n all_papers w = (Returned (all_papers ++ new), w')
    /\ Forall (record_of_page n) new.
Proof.
  destruct (visible_rows page w) as [[rows | e] w1] eqn:E.
  - rewrite (@collect_page_rows D page n all_papers w rows w1 E).
    eexists _, _. split; [reflexivity|].
    apply Forall_forall. intros p Hin.
    apply in_map_iff in Hin as (p0 & <- & Hin).
    apply filter_In in Hin as [_ Ht]. now apply tag_page_record.
  - rewrite (@collect_page_failed D page n all_papers w e w1 E).
    exists [], w1. rewrite app_nil_r. split; [reflexivity | constructor].
Qed.

Lemma ascending_repeat lo n k : (lo <= n)%Z -> ascending_from lo (repeat n k).
Proof.
  revert lo. induction k as [|k IH]; intros lo H; simpl; [exact I|].
  split; [assumption | apply IH; lia].
Qed.

Lemma ascending_app lo ns n k b :
  ascending_from lo ns -> Forall (fun x => x <= b)%Z ns -> (b <= n)%Z -> (lo <= n)%Z ->
  ascending_from lo (ns ++ repeat n k).
Proof.
  revert lo. induction ns as [|x ns IH]; intros lo Hasc Hb Hbn Hlo; simpl.
  - now apply ascending_repeat.
  - destruct Hasc as [Hx Hasc]. inversion Hb; subst.
    split; [assumption | apply IH; auto; lia].
Qed.

Lemma in_page_order_extend pages b n acc new :
  in_page_order pages b acc -> (1 <= n)%Z -> (b <= n)%Z -> (n <= pages)%Z ->
  Forall (record_of_page n) new ->
  in_page_order pages n (acc ++ new).
Proof.
  intros (ns & Htags & Hasc & Hbound & Htitled) H1 Hbn Hnp Hnew.
  exists (ns ++ repeat n (length new)). repeat split.
  - rewrite !map_app, Htags. f_equal.
    clear -Hnew. induction Hnew as [|p new [Hp _] _ IH]; simpl; [reflexivity|].
    now rewrite Hp, IH.
  - apply ascending_app with (b := b); auto.
    eapply Forall_impl; [|exact Hbound]. simpl. intros; lia.
  - apply Forall_app. split.
    + eapply Forall_impl; [|exact Hbound]. simpl. intros; lia.
    + apply Forall_forall. intros x Hx. apply repeat_spec in Hx. lia.
  - apply Forall_app. split; [assumption|].
    eapply Forall_impl; [|exact Hnew]. now intros p [_ Ht].
Qed.

Lemma in_page_order_loop page pages nums : forall b acc w,
  in_page_order pages b acc -> (1 <= b)%Z ->
  ascending_from b nums -> Forall (fun n => n <= pages)%Z nums ->
  exists papers w' b',
    collect_loop page pages nums acc w = (Returned papers, w')
    /\ in_page_order pages b' papers.
Proof.
  induction nums as [|n rest IH]; intros b acc w Hinv Hb Hasc Hle.
  - simpl. now exists acc, w, b.
  - destruct Hasc as [Hbn Hasc]. inversion Hle as [|? ? Hnp Hle']; subst.
    simpl. unfold bind at 1.
    destruct (collect_page_appends page n acc w) as (new & w1 & -> & Hnew).
    assert (Hinv1 : in_page_order pages n (acc ++ new))
      by (apply in_page_order_extend with (b := b); auto; lia).
    destruct (n <? pages)%Z.
    + unfold bind. destruct (goto_next_works page w1) as (w2 & ->).
      destruct (next_works page (w_env w1)).
      * apply IH with (b := n); auto; lia.
      * now exists (acc ++ new), w2, n.
    + apply IH with (b := n); auto; lia.
Qed.

Lemma py_range_bounds k : forall lo hi,
  Z.to_nat (hi - lo) = k ->
  ascending_from lo (py_range lo hi) /\ Forall (fun n => n < hi)%Z (py_range lo hi).
Proof.
  induction k as [|k IH]; intros lo hi Hk.
  - unfold py_range. rewrite Hk. simpl. split; [exact I | constructor].
  - rewrite py_range_cons by lia.
    destruct (IH (lo + 1)%Z hi ltac:(lia)) as [Hasc Hlt].
    split.
    + simpl. split; [lia|].
      destruct (py_range (lo + 1) hi) as [|x r]; [exact I|].
      simpl in *. split; [lia | tauto].
    + constructor; [lia | assumption].
Qed.

(** X13.  [_collect_results] always returns, and what it returns is in page
    order: every record carries the number of the page it was read on, the
    numbers start at 1 or above, never decrease along the list and never
    exceed the page count asked for; every record has a title. *)
Theorem collect_results_in_page_order (page : handle) (pages : Z) (w : World) :
  exists papers w' ns,
    _collect_results page pages w = (Returned papers, w')
    /\ map (fun p => dict_get p "page") papers = map (fun n => Some (VInt n)) ns
    /\ ascending_from 1 ns
    /\ Forall (fun n => n <= pages)%Z ns
    /\ Forall (fun p => dict_truthy p "title" = true) papers.
Proof.
  destruct (@py_range_bounds (Z.to_nat (pages + 1 - 1)) 1 (pages + 1) eq_refl) as [Hasc Hlt].
  destruct (@in_page_order_loop page pages (py_range 1 (pages + 1)) 1 [] w)
    as (papers & w' & b' & Hrun & ns & Htags & Hns & Hbound & Htitled).
  - exists []. repeat split; constructor.
  - lia.
  - assumption.
  - eapply Forall_impl; [|exact Hlt]. simpl. intros; lia.
  - exists papers, w', ns. repeat split; try assumption.
    eapply Forall_impl; [|exact Hbound]. simpl. intros; lia.
Qed.

(** X12.  Asked for no page, or for a negative number of pages,
    [_collect_results] returns no record and does not touch the browser. *)
Theorem collect_results_no_pages (page : handle) (pages : Z) (w : World) :
  (pages <= 0)%Z -> _collect_results page pages w = (Returned [], w).
Proof.
  intros H. unfold _collect_results, py_range.
  now replace (Z.to_nat (pages + 1 - 1)) with 0 by lia.
Qed.

(** X22.  A row in which no element is found (each lookup raises or comes
    back empty) parses to the record of empty fields with both counts "0";
    that record has no title, so the collector drops it. *)
Theorem parse_paper_row_nothing_found (row : handle) (w : World) :
  nothing_found row ->
  fst (_parse_paper_row row w) = Returned EMPTY_ROW
  /\ has_title EMPTY_ROW = false.
Proof.
  intros [Hone Hall]. split; [|reflexivity].
  destruct w as [env nxt pool tr].
  unfold _parse_paper_row, field_or, text_or.
  cbv [bind try_except call ret]. simpl.
  repeat match goal with
         | |- context [respond (query_selector (OnElement row) ?sel) ?e] =>
             let H := fresh "H" in
             pose proof (Hone sel e) as H;
             destruct (respond (query_selector (OnElement row) sel) e) as [[? | [?|]] ?];
             simpl in H |- *; try contradiction; clear H
         | |- context [respond (query_selector_all (OnElement row) ?sel) ?e] =>
             let H := fresh "H" in
             pose proof (Hall sel e) as H;
             destruct (respond (query_selector_all (OnElement row) sel) e) as [[? | [|? ?]] ?];
             simpl in H |- *; try contradiction; clear H
         end;
    reflexivity.
Qed.

End SearchSteps.

(** A run of X11: typing "abc" where the key "b" fails stops right after
    that key, with its exception. *)
Lemma type_slowly_types_in_order_witness :
  @type_slowly (mock_driver stuck_key) 2 (u"#txt_SearchText") (u"abc")
    (mock_start stuck_key)
  = (Raised (Exception (u"mock fault")),
     after_calls (mock_start stuck_key) 0
       [EvCall (locator_clear 2 (u"#txt_SearchText"));
        EvCall (locator_press_sequentially 2 (u"#txt_SearchText") 97);
        EvCall (locator_press_sequentially 2 (u"#txt_SearchText") 98)]).
Proof.
  exact (proj1 (proj2 (proj2
    (@type_slowly_types_in_order (mock_driver stuck_key) 2 (u"#txt_SearchText") (u"abc")
       (mock_start stuck_key))))
    tt 0 (u"a") 98%N (u"c") 0 (Exception (u"mock fault")) 0
    eq_refl eq_refl eq_refl eq_refl).
Defined.

(** A run of X12: no page is asked for. *)
Lemma collect_results_no_pages_witness :
  @_collect_results (mock_driver three_pages) 0 0 (mock_start three_pages)
  = (Returned [], mock_start three_pages).
Proof.
  apply (@collect_results_no_pages (mock_driver three_pages) 0 0 (mock_start three_pages)).
  lia.
Defined.

(** A run of X22 on the row of the portal without title links. *)
Lemma parse_paper_row_nothing_found_witness :
  fst (@_parse_paper_row (mock_driver untitled) 1 (mock_start untitled))
  = Returned EMPTY_ROW.
Proof.
  apply (@parse_paper_row_nothing_found (mock_driver untitled) 1 (mock_start untitled)).
  split; intros sel e; exact I.
Defined.

(* --------------------------------------------------------------------- *)
(** ** What the tools hand back *)
(* --------------------------------------------------------------------- *)

Section Payloads.
Context {D : Driver}.

Lemma match_result_at_closest (query : str) (titles urls : list str) (w : World) :
  titles <> [] ->
  length urls = length titles ->
  exists t x,
    nth_error titles (find_closest_title query titles) = Some t
    /\ nth_error urls (find_closest_title query titles) = Some x
    /\ match_result query titles urls w =
         (Returned [ ("query", VStr query);
                     ("best_match", VDict [ ("title", VStr t); ("url", VStr x) ]);
                     ("total_results", VInt (Z.of_nat (length titles))) ]%string, w).
Proof.
  intros Hne Hlen.
  pose proof (find_closest_title_lt query Hne) as Hidx.
  destruct (list_item_in_bounds titles w Hidx) as (t & Ht & Hrt).
  rewrite <- Hlen in Hidx.
  destruct (list_item_in_bounds urls w Hidx) as (x & Hx & Hrx).
  exists t, x. split; [assumption|]. split; [assumption|].
  unfold match_result. destruct titles as [|t0 titles]; [contradiction|].
  unfold bind. now rewrite Hrt, Hrx.
Qed.

(** X6.  With candidates at hand, the answer names the candidate that shares
    the most characters with the query, with the address found at the same
    position, and counts all candidates; nothing is done to the browser. *)
Theorem match_result_picks_best (query : str) (titles urls : list str) (w : World) :
  titles <> [] ->
  length urls = length titles ->
  exists i t x,
    nth_error titles i = Some t
    /\ nth_error urls i = Some x
    /\ (forall t', In t' titles -> common_chars query t' <= common_chars query t)
    /\ match_result query titles urls w =
         (Returned [ ("query", VStr query);
                     ("best_match", VDict [ ("title", VStr t); ("url", VStr x) ]);
                     ("total_results", VInt (Z.of_nat (length titles))) ]%string, w).
Proof.
  intros Hne Hlen.
  destruct (match_result_at_closest query urls w Hne Hlen) as (t & x & Ht & Hx & Hrun).
  pose proof (find_closest_title_first_max query titles) as Hfm. cbv zeta in Hfm.
  destruct Hfm as (_ & Hmax & _).
  exists (find_closest_title query titles), t, x.
  split; [assumption|]. split; [assumption|]. split; [|assumption].
  intros t' Hin. apply In_nth with (d := []) in Hin as (j & Hj & <-).
  specialize (Hmax j Hj).
  assert (Hn : nth (find_closest_title query titles) titles [] = t)
    by (apply nth_error_nth; exact Ht).
  now rewrite Hn in Hmax.
Qed.

Lemma lease_contract_returned (w0 : World) body on_error payload w' :
  lease_contract w0 body on_error (Returned payload) w' ->
  (exists p w1 w2, body p w1 = (Returned payload, w2))
  \/ exists e, payload = on_error e.
Proof.
  intros [Hfail Hok].
  destruct (get_page w0) as [[page | e] w1] eqn:Hget.
  - destruct (Hok page w1 eq_refl) as (payload0 & w2 & _ & Hor & _ & Hret & Hraise).
    destruct (respond (page_close (page_id page)) (w_env w2)) as [[e | x] env3] eqn:Hclose.
    + specialize (Hraise e env3 eq_refl). discriminate.
    + specialize (Hret x env3 eq_refl). injection Hret as <-.
      destruct Hor as [Hbody | (e & _ & ->)].
      * left. now exists (page_id page), w1, w2.
      * right. now exists e.
  - destruct (Hfail e w1 eq_refl) as [H _]. discriminate.
Qed.

Lemma detail_record_keys (page : handle) (url : str) (w : World) paper w' :
  _get_paper_detail page url w = (Returned paper, w') ->
  map fst paper = DETAIL_KEYS /\ dict_get paper "url" = Some (VStr url).
Proof.
  unfold _get_paper_detail. cbv zeta. intros H.
  repeat (apply bind_returned in H as (? & ? & _ & H)).
  unfold ret in H. injection H as <- _.
  split.
  - repeat first [ apply detail_keys_set; [|reflexivity] | apply detail_keys_parse ].
    reflexivity.
  - repeat first
      [ rewrite dict_get_set_other by discriminate
      | rewrite parse_info_other_keys by discriminate ].
    reflexivity.
Qed.

(** X17.  A detail record that comes back has exactly the nineteen keys of
    the literal, in its order; its address is the one asked for, and its
    English keywords are always the empty list: nothing fills them. *)
Theorem get_paper_detail_record (page : handle) (url : str) (w : World) paper w' :
  _get_paper_detail page url w = (Returned paper, w') ->
  map fst paper = DETAIL_KEYS
  /\ dict_get paper "url" = Some (VStr url)
  /\ dict_get paper "keywords_en" = Some (VList []).
Proof.
  intros H. destruct (detail_record_keys _ _ _ H) as [Hkeys Hurl].
  split; [assumption|]. split; [assumption|].
  revert H. unfold _get_paper_detail. cbv zeta. intros H.
  repeat (apply bind_returned in H as (? & ? & _ & H)).
  unfold ret in H. injection H as <- _.
  repeat first
    [ rewrite dict_get_set_other by discriminate
    | rewrite parse_info_other_keys by discriminate ].
  reflexivity.
Qed.

(** X18.  What [get_paper_detail] returns is either an error payload (that
    of the guard, or one that repeats the address) or a full detail record
    for the address asked for. *)
Theorem get_paper_detail_payload (url : str) (w : World) payload w' :
  get_paper_detail url w = (Returned payload, w') ->
  (dict_get payload "isError" = Some (VBool true)
   /\ (payload = not_cnki_error \/ dict_get payload "url" = Some (VStr url)))
  \/ (map fst payload = DETAIL_KEYS /\ dict_get payload "url" = Some (VStr url)).
Proof.
  intros Hrun. destruct (is_cnki_link url) eqn:Hlink.
  - apply get_paper_detail_contract in Hrun; [|assumption].
    apply lease_contract_returned in Hrun as [(p & w1 & w2 & Hbody) | (e & ->)].
    + right. now apply detail_record_keys in Hbody.
    + left. split; [reflexivity | now right].
  - unfold get_paper_detail in Hrun. rewrite Hlink in Hrun. simpl in Hrun.
    unfold ret in Hrun. injection Hrun as <- _. left. split; [reflexivity | now left].
Qed.

Lemma simple_search_payload page query search_type sort pages w payload w' :
  _simple_search page query search_type sort pages w = (Returned payload, w') ->
  exists papers,
    payload = [ ("query", VStr query);
                ("search_type", VStr (resolve_search_type search_type));
                ("sort", VStr (resolve_sort_type sort));
                ("total_pages", VInt pages);
                ("total_papers", VInt (Z.of_nat (length papers)));
                ("papers", VList (map VDict papers)) ]%string.
Proof.
  unfold _simple_search. cbv zeta. intros H.
  repeat (apply bind_returned in H as (? & ? & _ & H)).
  unfold ret in H. injection H as <- _. now eexists.
Qed.

Lemma professional_search_payload page query search_type journal sort pages w payload w' :
  _professional_search page query search_type journal sort pages w = (Returned payload, w') ->
  exists papers code,
    (table_get PROFESSIONAL_SEARCH_FIELDS (resolve_search_type search_type) = Some code
     \/ table_get PROFESSIONAL_SEARCH_FIELDS (resolve_search_type search_type) = None
        /\ code = u"SU")
    /\ payload = [ ("query", VStr query);
                   ("search_type", VStr (resolve_search_type search_type));
                   ("journal", VStr journal);
                   ("sort", VStr (resolve_sort_type sort));
                   ("expression",
                    VStr (u"(" ++ code ++ u"='" ++ query ++ u"') AND (JN='" ++ journal
                          ++ u"')")%list);
                   ("total_pages", VInt pages);
                   ("total_papers", VInt (Z.of_nat (length papers)));
                   ("papers", VList (map VDict papers)) ]%string.
Proof.
  unfold _professional_search. cbv zeta.
  destruct (table_get PROFESSIONAL_SEARCH_FIELDS (resolve_search_type search_type))
    as [c|] eqn:E; intros H;
    repeat (apply bind_returned in H as (? & ? & _ & H));
    unfold ret in H; injection H as <- _.
  - eexists _, c. split; [now left | reflexivity].
  - eexists _, (u"SU"). split; [now right | reflexivity].
Qed.

Lemma professional_codes :
  forallb (fun k =>
             let code := match table_get PROFESSIONAL_SEARCH_FIELDS k with
                         | Some c => c
                         | None => u"SU"
                         end in
             if existsb (str_eqb k) FIELDS_SEARCHED_AS_SUBJECT
             then str_eqb code (u"SU")
             else match table_get SEARCH_TYPES k with
                  | Some c => str_eqb c code
                  | None => false
                  end)
          (table_keys SEARCH_TYPES) = true.
Proof. vm_compute. reflexivity. Qed.

(** X25.  The expression of a journal-restricted search is
    (CODE='query') AND (JN='journal'), the query and the journal copied as
    given.  For the five fields the professional search has no code for
    (篇关摘, 基金, 参考文献, 分类号, 文献来源) CODE is SU, the code of a
    subject search; for every other field it is the field's own code. *)
Theorem professional_search_expression (page : handle)
    (query search_type journal sort : str) (pages : Z) (w : World) payload w' :
  _professional_search page query search_type journal sort pages w = (Returned payload, w') ->
  exists code,
    dict_get payload "expression"
      = Some (VStr (u"(" ++ code ++ u"='" ++ query ++ u"') AND (JN='" ++ journal ++ u"')"))
    /\ dict_get payload "journal" = Some (VStr journal)
    /\ (if existsb (str_eqb (resolve_search_type search_type)) FIELDS_SEARCHED_AS_SUBJECT
        then code = u"SU"
        else table_get SEARCH_TYPES (resolve_search_type search_type) = Some code).
Proof.
  intros H.
  apply professional_search_payload in H as (papers & code & Hcode & ->).
  exists code. split; [reflexivity|]. split; [reflexivity|].
  pose proof professional_codes as Hall. rewrite forallb_forall in Hall.
  specialize (Hall _ (table_mem_In _ _ (resolve_search_type_canonical search_type))).
  cbv zeta in Hall.
  destruct Hcode as [Hsome | [Hnone ->]].
  - rewrite Hsome in Hall.
    destruct (existsb (str_eqb (resolve_search_type search_type))
                FIELDS_SEARCHED_AS_SUBJECT).
    + now apply str_eqb_eq in Hall.
    + destruct (table_get SEARCH_TYPES (resolve_search_type search_type)) as [c|];
        [|discriminate Hall].
      apply str_eqb_eq in Hall. now subst.
  - rewrite Hnone in Hall.
    destruct (existsb (str_eqb (resolve_search_type search_type))
                FIELDS_SEARCHED_AS_SUBJECT); [reflexivity|].
    destruct (table_get SEARCH_TYPES (resolve_search_type search_type)) as [c|];
      [|discriminate Hall].
    apply str_eqb_eq in Hall. now subst.
Qed.

(** X3.  What [search_cnki] returns is either the error payload, with an
    empty list of papers, or a payload whose count is the length of its list
    of papers, which repeats the query and the page count asked for, and
    whose field and sort order are canonical names. *)
Theorem search_cnki_payload (query search_type : str) (journal : option str) (pages : Z)
    (sort : str) (w : World) payload w' :
  search_cnki query search_type journal pages sort w = (Returned payload, w') ->
  (dict_get payload "isError" = Some (VBool true)
   /\ dict_get payload "papers" = Some (VList []))
  \/ (exists papers,
        dict_get payload "papers" = Some (VList (map VDict papers))
        /\ dict_get payload "total_papers" = Some (VInt (Z.of_nat (length papers)))
        /\ dict_get payload "total_pages" = Some (VInt pages)
        /\ dict_get payload "query" = Some (VStr query)
        /\ dict_get payload "search_type" = Some (VStr (resolve_search_type search_type))
        /\ dict_get payload "sort" = Some (VStr (resolve_sort_type sort))
        /\ table_mem SEARCH_TYPES (resolve_search_type search_type) = true
        /\ table_mem SORT_TYPES (resolve_sort_type sort) = true
        /\ dict_get payload "isError" = None).
Proof.
  intros Hrun. apply search_cnki_contract in Hrun.
  apply lease_contract_returned in Hrun as [(p & w1 & w2 & Hbody) | (e & ->)].
  - right. unfold search_body in Hbody.
    pose proof (resolve_search_type_canonical search_type) as Hst.
    pose proof (resolve_sort_type_canonical sort) as Hso.
    destruct journal as [j|]; [destruct (journal_given (Some j))|].
    + apply professional_search_payload in Hbody as (papers & code & _ & ->).
      exists papers. now repeat split.
    + apply simple_search_payload in Hbody as (papers & ->).
      exists papers. now repeat split.
    + apply simple_search_payload in Hbody as (papers & ->).
      exists papers. now repeat split.
  - left. now split.
Qed.

Lemma gather_links_from links : forall titles urls w,
  exists mt mu w',
    gather_links links titles urls w = (Returned (titles ++ mt, urls ++ mu), w')
    /\ Forall (fun t => falsy t = false) mt
    /\ length mt = length mu /\ length mt <= length links.
Proof.
  induction links as [|link rest IH]; intros titles urls w.
  - exists [], [], w. simpl. rewrite !app_nil_r. repeat split; auto.
  - destruct w as [env nxt pool tr]. simpl.
    unfold bind, try_except, call, ret; simpl.
    destruct (respond (inner_text link) env) as [[e | t] env1]; simpl;
      [exists [], []; rewrite !app_nil_r; eexists; repeat split; auto; simpl; lia|].
    destruct (respond (get_attribute link (u"href")) env1) as [[e | h] env2]; simpl;
      [exists [], []; rewrite !app_nil_r; eexists; repeat split; auto; simpl; lia|].
    destruct (falsy (strip t)) eqn:Et; simpl.
    + match goal with |- context [gather_links rest titles urls ?w1] =>
        destruct (IH titles urls w1) as (mt & mu & w' & Hrun & Hmt & Hlen & Hle) end.
      exists mt, mu, w'. repeat split; auto.
    + match goal with |- context [gather_links rest (titles ++ [?x]) (urls ++ [?y]) ?w1] =>
        destruct (IH (titles ++ [x]) (urls ++ [y]) w1)
          as (mt & mu & w' & Hrun & Hmt & Hlen & Hle)
      end.
      exists (strip t :: mt). eexists. exists w'.
      rewrite Hrun, <- !app_assoc. split; [reflexivity|].
      split; [now constructor|]. simpl. split; [now rewrite Hlen | lia].
Qed.

(** X24.  Reading the result links always returns: the titles kept are
    non-empty, there is one address per title, and no more candidates than
    links. *)
Theorem gather_links_candidates (links : list handle) (w : World) :
  exists titles urls w',
    gather_links links [] [] w = (Returned (titles, urls), w')
    /\ Forall (fun t => falsy t = false) titles
    /\ length urls = length titles
    /\ length titles <= length links.
Proof.
  destruct (gather_links_from links [] [] w) as (mt & mu & w' & Hrun & Hmt & Hlen & Hle).
  exists mt, mu, w'. simpl in Hrun. now repeat split.
Qed.

Lemma find_candidates_well_formed p query w found w' :
  find_candidates p query w = (Returned found, w') ->
  Forall (fun t => falsy t = false) (fst found)
  /\ length (snd found) = length (fst found).
Proof.
  unfold find_candidates. intros H.
  repeat (apply bind_returned in H as (? & ? & _ & H)).
  unfold try_except in H.
  match type of H with
  | (let (_, _) := ?m ?w in _) = _ => destruct (m w) as [[[ts us] | e] w2] eqn:E
  end.
  - injection H as <- <-.
    repeat (apply bind_returned in E as (? & ? & _ & E)).
    match type of E with
    | gather_links ?l _ _ ?w0 = _ =>
        destruct (gather_links_from l [] [] w0) as (ts' & us' & w3 & Hg & Hne & Hlen & _)
    end.
    simpl in Hg. rewrite Hg in E. injection E as <- <- <-. now split.
  - unfold ret in H. injection H as <- <-. split; [constructor | reflexivity].
Qed.

(** X21.  What [find_best_match] returns has one of three shapes: the error
    payload; the no-match payload; or the query, a best match with a
    non-empty title and its address, and a count of at least one. *)
Theorem find_best_match_payload (query : str) (w : World) payload w' :
  find_best_match query w = (Returned payload, w') ->
  dict_get payload "isError" = Some (VBool true)
  \/ payload = no_match query
  \/ exists t x n,
       payload = [ ("query", VStr query);
                   ("best_match", VDict [ ("title", VStr t); ("url", VStr x) ]);
                   ("total_results", VInt (Z.of_nat n)) ]%string
       /\ 1 <= n
       /\ falsy t = false.
Proof.
  intros Hrun. apply find_best_match_contract in Hrun.
  apply lease_contract_returned in Hrun as [(p & w1 & w2 & Hbody) | (e & ->)];
    [|now left].
  right. unfold best_match_body in Hbody.
  apply bind_returned in Hbody as ([titles urls] & w3 & Hfound & Hres).
  apply find_candidates_well_formed in Hfound as [Hne Hlen]. simpl in *.
  destruct titles as [|t0 titles].
  - left. unfold match_result, ret in Hres. now injection Hres as <- _.
  - right.
    destruct (@match_result_at_closest query (t0 :: titles) urls w3
                ltac:(discriminate) Hlen) as (t & x & Ht & _ & Hm).
    rewrite Hm in Hres. injection Hres as <- _.
    exists t, x, (length (t0 :: titles)). split; [reflexivity|]. split; [simpl; lia|].
    apply nth_error_In in Ht. rewrite Forall_forall in Hne. now apply Hne.
Qed.

End Payloads.

(** A run of X6 on two candidates. *)
Lemma match_result_picks_best_witness :
  exists i t x,
    nth_error [u"ab"; u"abc"] i = Some t
    /\ nth_error [u"/a"; u"/b"] i = Some x
    /\ (forall t', In t' [u"ab"; u"abc"] ->
                   common_chars (u"abc") t' <= common_chars (u"abc") t)
    /\ @match_result (mock_driver quiet) (u"abc") [u"ab"; u"abc"] [u"/a"; u"/b"]
         (mock_start quiet) =
         (Returned [ ("query", VStr (u"abc"));
                     ("best_match", VDict [ ("title", VStr t); ("url", VStr x) ]);
                     ("total_results", VInt (Z.of_nat (length [u"ab"; u"abc"]))) ]%string,
          mock_start quiet).
Proof.
  apply (@match_result_picks_best (mock_driver quiet) (u"abc") [u"ab"; u"abc"]
           [u"/a"; u"/b"] (mock_start quiet)).
  - discriminate.
  - reflexivity.
Defined.

(** A run of X17 on the empty portal. *)
Lemma get_paper_detail_record_witness :
  map fst (payload_of (fst (@_get_paper_detail (mock_driver quiet) 2
                              (u"https://kns.cnki.net/kcms/x") (mock_start quiet))))
  = DETAIL_KEYS.
Proof.
  set (run := @_get_paper_detail (mock_driver quiet) 2
                (u"https://kns.cnki.net/kcms/x") (mock_start quiet)).
  assert (Hrun : run = (Returned (payload_of (fst run)), snd run))
    by (vm_compute; reflexivity).
  exact (proj1 (@get_paper_detail_record (mock_driver quiet) 2
                  (u"https://kns.cnki.net/kcms/x") (mock_start quiet)
                  (payload_of (fst run)) (snd run) Hrun)).
Defined.

(** A run of X18 on the empty portal. *)
Lemma get_paper_detail_payload_witness :
  let payload :=
    payload_of (fst (@get_paper_detail (mock_driver quiet)
                       (u"https://kns.cnki.net/kcms/x") (mock_start quiet))) in
  (dict_get payload "isError" = Some (VBool true)
   /\ (payload = not_cnki_error
       \/ dict_get payload "url" = Some (VStr (u"https://kns.cnki.net/kcms/x"))))
  \/ (map fst payload = DETAIL_KEYS
      /\ dict_get payload "url" = Some (VStr (u"https://kns.cnki.net/kcms/x"))).
Proof.
  set (run := @get_paper_detail (mock_driver quiet)
                (u"https://kns.cnki.net/kcms/x") (mock_start quiet)).
  assert (Hrun : run = (Returned (payload_of (fst run)), snd run))
    by (vm_compute; reflexivity).
  exact (@get_paper_detail_payload (mock_driver quiet)
           (u"https://kns.cnki.net/kcms/x") (mock_start quiet)
           (payload_of (fst run)) (snd run) Hrun).
Defined.

(** A run of X25: a journal-restricted search by fund, a field the
    professional search has no code for, is a subject search. *)
Lemma professional_search_expression_witness :
  dict_get
    (payload_of (fst (@_professional_search (mock_driver quiet) 2 (u"graphene")
                        (u"fund") (u"Nature") (u"date") 1 (mock_start quiet))))
    "expression"
  = Some (VStr (u"(SU='graphene') AND (JN='Nature')")).
Proof.
  set (run := @_professional_search (mock_driver quiet) 2 (u"graphene")
                (u"fund") (u"Nature") (u"date") 1 (mock_start quiet)).
  assert (Hrun : run = (Returned (payload_of (fst run)), snd run))
    by (vm_compute; reflexivity).
  destruct (@professional_search_expression (mock_driver quiet) 2 (u"graphene")
              (u"fund") (u"Nature") (u"date") 1 (mock_start quiet)
              (payload_of (fst run)) (snd run) Hrun) as (code & Hexpr & _ & Hcode).
  assert (Hfund : existsb (str_eqb (resolve_search_type (u"fund")))
                    FIELDS_SEARCHED_AS_SUBJECT = true)
    by (vm_compute; reflexivity).
  rewrite Hfund in Hcode. rewrite Hcode in Hexpr. exact Hexpr.
Defined.

(** A run of X3: two pages of ten and five rows. *)
Lemma search_cnki_payload_witness :
  let payload :=
    payload_of (fst (@search_cnki (mock_driver ten_and_five) (u"graphene") (u"title")
                       None 2 (u"date") (mock_start ten_and_five))) in
  (dict_get payload "isError" = Some (VBool true)
   /\ dict_get payload "papers" = Some (VList []))
  \/ (exists papers,
        dict_get payload "papers" = Some (VList (map VDict papers))
        /\ dict_get payload "total_papers" = Some (VInt (Z.of_nat (length papers)))
        /\ dict_get payload "total_pages" = Some (VInt 2)
        /\ dict_get payload "query" = Some (VStr (u"graphene"))
        /\ dict_get payload "search_type" = Some (VStr (resolve_search_type (u"title")))
        /\ dict_get payload "sort" = Some (VStr (resolve_sort_type (u"date")))
        /\ table_mem SEARCH_TYPES (resolve_search_type (u"title")) = true
        /\ table_mem SORT_TYPES (resolve_sort_type (u"date")) = true
        /\ dict_get payload "isError" = None).
Proof.
  set (run := @search_cnki (mock_driver ten_and_five) (u"graphene") (u"title")
                None 2 (u"date") (mock_start ten_and_five)).
  assert (Hrun : run = (Returned (payload_of (fst run)), snd run))
    by (vm_compute; reflexivity).
  exact (@search_cnki_payload (mock_driver ten_and_five) (u"graphene") (u"title")
           None 2 (u"date") (mock_start ten_and_five)
           (payload_of (fst run)) (snd run) Hrun).
Defined.

(** A run of X21: two candidates on the portal. *)
Lemma find_best_match_payload_witness :
  let payload :=
    payload_of (fst (@find_best_match (mock_driver two_links) (u"abc")
                       (mock_start two_links))) in
  dict_get payload "isError" = Some (VBool true)
  \/ payload = no_match (u"abc")
  \/ exists t x n,
       payload = [ ("query", VStr (u"abc"));
                   ("best_match", VDict [ ("title", VStr t); ("url", VStr x) ]);
                   ("total_results", VInt (Z.of_nat n)) ]%string
       /\ 1 <= n
       /\ falsy t = false.
Proof.
  set (run := @find_best_match (mock_driver two_links) (u"abc") (mock_start two_links)).
  assert (Hrun : run = (Returned (payload_of (fst run)), snd run))
    by (vm_compute; reflexivity).
  exact (@find_best_match_payload (mock_driver two_links) (u"abc") (mock_start two_links)
           (payload_of (fst run)) (snd run) Hrun).
Defined.

Section Reporting.
Context {D : Driver}.

Lemma notify_returned n w (x : unit) w1 :
  notify n w = (Returned x, w1) -> w_trace w1 = w_trace w ++ [EvNotice n].
Proof. cbv [notify log]. now intros [= _ <-]. Qed.

(** X26.  When [search_cnki] returns, its last two notifications are the
    progress 100 of 100 and then the outcome.  Either the payload is the
    error payload, and the outcome is an error notification with its
    message; or the payload is not an error payload, and the outcome is an
    information giving the number of papers in the list it returns. *)
Theorem search_cnki_reports_outcome (query search_type : str) (journal : option str)
    (pages : Z) (sort : str) (w : World) payload w' :
  search_cnki query search_type journal pages sort w = (Returned payload, w') ->
  exists before final,
    w_trace w' = before ++ [EvNotice (ctx_report_progress 100 100); EvNotice final]
    /\ ((exists e, payload = search_error e
                   /\ final = ctx_error [VStr (u"搜索失败: "); VStr (exn_msg e)])
        \/ (exists papers,
              dict_get payload "isError" = None
              /\ dict_get payload "papers" = Some (VList (map VDict papers))
              /\ dict_get payload "total_papers"
                 = Some (VInt (Z.of_nat (length papers)))
              /\ final = ctx_info [VStr (u"找到 "); VInt (Z.of_nat (length papers));
                                   VStr (u" 篇论文")])).
Proof.
  intros Hrun. pose proof (search_cnki_contract _ _ _ _ _ _ Hrun) as Hshape.
  apply lease_contract_returned in Hshape.
  unfold search_cnki in Hrun.
  apply bind_returned in Hrun as (? & ? & _ & Hrun).
  apply bind_returned in Hrun as (? & ? & _ & Hrun).
  apply bind_returned in Hrun as (page & ? & _ & Hrun).
  apply bind_returned in Hrun as (result & w4 & _ & Hrun).
  apply bind_returned in Hrun as (? & w5 & Hprogress & Hrun).
  apply bind_returned in Hrun as (? & w6 & Hfinal & Hrun).
  unfold ret in Hrun. injection Hrun as <- <-.
  apply notify_returned in Hprogress.
  assert (Hlast : forall final,
             (if dict_truthy result "isError" then
                notify (ctx_error [VStr (u"搜索失败: ");
                                   match dict_get result "error" with
                                   | Some v => v
                                   | None => VNone
                                   end])
              else
                notify (ctx_info [VStr (u"找到 ");
                                  match dict_get result "total_papers" with
                                  | Some v => v
                                  | None => VInt 0
                                  end;
                                  VStr (u" 篇论文")])) = notify final ->
             w_trace w6 = w_trace w4
                          ++ [EvNotice (ctx_report_progress 100 100); EvNotice final]).
  { intros final Heq. rewrite Heq in Hfinal. apply notify_returned in Hfinal.
    rewrite Hfinal, Hprogress, <- app_assoc. reflexivity. }
  destruct Hshape as [(p & w1 & w2 & Hbody) | (e & ->)].
  - unfold search_body in Hbody.
    assert (Hok : exists papers,
               dict_truthy result "isError" = false
               /\ dict_get result "isError" = None
               /\ dict_get result "papers" = Some (VList (map VDict papers))
               /\ dict_get result "total_papers"
                  = Some (VInt (Z.of_nat (length papers)))).
    { destruct journal as [j|]; [destruct (journal_given (Some j))|].
      - apply professional_search_payload in Hbody as (papers & code & _ & ->).
        exists papers. now repeat split.
      - apply simple_search_payload in Hbody as (papers & ->).
        exists papers. now repeat split.
      - apply simple_search_payload in Hbody as (papers & ->).
        exists papers. now repeat split. }
    destruct Hok as (papers & Herr & Hnone & Hpapers & Hcount).
    eexists _, _. split.
    + apply Hlast. rewrite Herr, Hcount. reflexivity.
    + right. exists papers. repeat (split; [assumption|]). reflexivity.
  - eexists _, _. split.
    + apply Hlast. reflexivity.
    + left. exists e. split; reflexivity.
Qed.

End Reporting.

(** A run of X26: fifteen papers are announced. *)
Lemma search_cnki_reports_outcome_witness :
  exists before,
    w_trace (snd (@search_cnki (mock_driver ten_and_five) (u"graphene") (u"title")
                    None 2 (u"date") (mock_start ten_and_five)))
    = before ++ [EvNotice (ctx_report_progress 100 100);
                 EvNotice (ctx_info [VStr (u"找到 "); VInt 15; VStr (u" 篇论文")])].
Proof.
  set (run := @search_cnki (mock_driver ten_and_five) (u"graphene") (u"title")
                None 2 (u"date") (mock_start ten_and_five)).
  assert (Hrun : run = (Returned (payload_of (fst run)), snd run))
    by (vm_compute; reflexivity).
  assert (Hnone : dict_get (payload_of (fst run)) "isError" = None)
    by (vm_compute; reflexivity).
  assert (Hfifteen : dict_get (payload_of (fst run)) "total_papers" = Some (VInt 15))
    by (vm_compute; reflexivity).
  destruct (@search_cnki_reports_outcome (mock_driver ten_and_five) (u"graphene")
              (u"title") None 2 (u"date") (mock_start ten_and_five)
              (payload_of (fst run)) (snd run) Hrun)
    as (before & final & Htrace & [(e & Hpayload & _) | (papers & _ & _ & Hcount & Hfinal)]).
  - rewrite Hpayload in Hnone. discriminate Hnone.
  - rewrite Hfifteen in Hcount. injection Hcount as Hcount.
    exists before. rewrite Htrace, Hfinal, <- Hcount. reflexivity.
Defined.
